(** * tuttifrutti: the designer portfolio editor and the client project list

    A shallow embedding of the event handlers and derived predicates of
    [src/pages/Potfolio.tsx] and of the rendering decision of
    [src/pages/client/ProjectsSection.tsx], followed by the properties the
    specification states about them.

    Conventions of the embedding:
    - a JavaScript string is the list of its UTF-16 code units;
    - a value of type [T | null | undefined] delivered by a reactive query
      is a [Query T]; an optional field [f?: T] is an [option T];
    - an event handler is a small program ([Handler]) built from the values
      the component closed over at render time; running it applies the state
      setters it calls and records what the outside world observes (alerts
      and remote mutations). *)

From Stdlib Require Import List ZArith NArith Bool String Ascii Lia.
Import ListNotations.

Set Implicit Arguments.

(** ** JavaScript strings *)

Module Js.

Local Open Scope N_scope.

Definition codeUnit := N.
Definition jsstring := list codeUnit.

(** An ASCII literal of the source as a JavaScript string. *)
Definition lit (s : string) : jsstring :=
  map N_of_ascii (list_ascii_of_string s).

(** ECMAScript WhiteSpace and LineTerminator code points, the characters
    [String.prototype.trim] strips. *)
Definition isWhiteSpace (c : codeUnit) : bool :=
  ((9 <=? c) && (c <=? 13))            (* TAB, LF, VT, FF, CR *)
  || (c =? 32)                         (* SPACE *)
  || (c =? 160)                        (* NO-BREAK SPACE *)
  || (c =? 5760)                       (* OGHAM SPACE MARK *)
  || ((8192 <=? c) && (c <=? 8202))    (* EN QUAD .. HAIR SPACE *)
  || (c =? 8232) || (c =? 8233)        (* LINE / PARAGRAPH SEPARATOR *)
  || (c =? 8239)                       (* NARROW NO-BREAK SPACE *)
  || (c =? 8287)                       (* MEDIUM MATHEMATICAL SPACE *)
  || (c =? 12288)                      (* IDEOGRAPHIC SPACE *)
  || (c =? 65279).                     (* ZERO WIDTH NO-BREAK SPACE *)

Fixpoint trimStart (s : jsstring) : jsstring :=
  match s with
  | [] => []
  | c :: r => if isWhiteSpace c then trimStart r else s
  end.

Definition trimEnd (s : jsstring) : jsstring := rev (trimStart (rev s)).

(** [s.trim()] *)
Definition trim (s : jsstring) : jsstring := trimEnd (trimStart s).

(** Truthiness of a string: every string but the empty one. *)
Definition truthy (s : jsstring) : bool :=
  match s with
  | [] => false
  | _ :: _ => true
  end.

(** Truthiness of an optional string ([undefined] is falsy). *)
Definition truthyOpt (o : option jsstring) : bool :=
  match o with
  | None => false
  | Some s => truthy s
  end.

(** [a === b] on strings: same code units in the same order. *)
Fixpoint strictEq (a b : jsstring) : bool :=
  match a, b with
  | [], [] => true
  | x :: a', y :: b' => (x =? y) && strictEq a' b'
  | _, _ => false
  end.

(** [arr.includes(x)] on an array of strings. *)
Definition includes (arr : list jsstring) (x : jsstring) : bool :=
  existsb (fun y => strictEq y x) arr.

(** [arr.filter((_, i) => p(i))]: the elements whose index satisfies [p],
    indices counted from [from]. *)
Fixpoint filterIndexFrom (A : Type) (from : nat) (p : nat -> bool)
    (arr : list A) : list A :=
  match arr with
  | [] => []
  | x :: r =>
      if p from then x :: filterIndexFrom (S from) p r
      else filterIndexFrom (S from) p r
  end.

Definition filterIndex (A : Type) (p : nat -> bool) (arr : list A) : list A :=
  filterIndexFrom 0%nat p arr.

(** Lower-casing of one code unit.  The cases written out are the Basic
    Latin and Latin-1 capitals and the two code points outside Basic Latin
    whose lower case lies in it (U+0130 and the Kelvin sign U+212A); the
    capitals of the other scripts, none of which lower-cases to a Basic Latin
    letter, are left as they are. *)
Definition lowerUnit (c : codeUnit) : jsstring :=
  if (65 <=? c) && (c <=? 90) then [c + 32]
  else if (192 <=? c) && (c <=? 222) && negb (c =? 215) then [c + 32]
  else if c =? 304 then [105; 775]
  else if c =? 8490 then [107]
  else [c].

(** [s.toLowerCase()] *)
Definition toLowerCase (s : jsstring) : jsstring := flat_map lowerUnit s.

(** The result of a reactive query: [undefined] while loading, [null] when
    the record does not exist, the record otherwise. *)
Inductive Query (A : Type) : Type :=
| Undefined : Query A
| Null : Query A
| Loaded : A -> Query A.

Arguments Undefined {A}.
Arguments Null {A}.
Arguments Loaded {A} _.

End Js.

(** ** Document identifiers *)

Module Convex.

Import Js.

(** Modelled from the spec: the type [Id] of [convex/_generated/dataModel],
    which is not part of the sources at hand.  Identifiers are opaque
    references handed out by the backing store; at run time they are strings
    that are never empty, which is what the truthiness guards of the save
    handlers observe. *)
Record Id : Type := mkId { id_first : codeUnit; id_rest : jsstring }.

Definition idString (i : Id) : jsstring := id_first i :: id_rest i.

End Convex.

(** ** The portfolio page: [src/pages/Potfolio.tsx] *)

Module Portfolio.

Import Js Convex.

Module SocialLink.
Record t : Type := mk { platform : jsstring; url : jsstring }.
End SocialLink.

Module DesignerRecord.
Record t : Type := mk {
  _id : Id;
  user_id : Id;
  contact_number : option jsstring;
  address : option jsstring;
  portfolio_id : option Id
}.
End DesignerRecord.

Module PortfolioRecord.
Record t : Type := mk {
  _id : Id;
  designer_id : Id;
  title : option jsstring;
  description : option jsstring;
  specialization : option jsstring;
  skills : option (list jsstring);
  social_links : option (list SocialLink.t)
}.
End PortfolioRecord.

(** The local state [designerForm]. *)
Module DesignerForm.
Record t : Type := mk { contact_number : jsstring; address : jsstring }.
End DesignerForm.

(** The local state [portfolioForm]. *)
Module PortfolioForm.
Record t : Type := mk {
  title : jsstring;
  description : jsstring;
  specialization : jsstring;
  skills : list jsstring;
  social_links : list SocialLink.t
}.
End PortfolioForm.

(** Argument objects of the two remote mutations. *)
Module UpdateDesigner.
Record t : Type := mk {
  designerId : Id;
  contact_number : jsstring;
  address : jsstring
}.
End UpdateDesigner.

Module UpdatePortfolio.
Record t : Type := mk {
  portfolioId : Id;
  title : jsstring;
  description : jsstring;
  specialization : jsstring;
  skills : list jsstring;
  social_links : list SocialLink.t
}.
End UpdatePortfolio.

Inductive Mutation : Type :=
| updateDesigner (args : UpdateDesigner.t)
| updatePortfolio (args : UpdatePortfolio.t).

(** Everything the handlers of the component read: the two query results
    and the six [useState] cells. *)
Record State : Type := mkState {
  designerProfile : Query DesignerRecord.t;
  portfolio : Query (list PortfolioRecord.t);
  designerForm : DesignerForm.t;
  portfolioForm : PortfolioForm.t;
  newSkill : jsstring;
  newSocial : SocialLink.t;
  editContact : bool;
  editPortfolio : bool
}.

(** The state of a freshly mounted component, before any query answers. *)
Definition initialState : State :=
  mkState Undefined Undefined
    (DesignerForm.mk [] [])
    (PortfolioForm.mk [] [] [] [] [])
    []
    (SocialLink.mk [] [])
    false false.

(** [portfolio?.[0] ?? null]; [None] stands for [null]. *)
Definition currentPortfolio (st : State) : option PortfolioRecord.t :=
  match portfolio st with
  | Loaded (p :: _) => Some p
  | Loaded [] => None
  | Null => None
  | Undefined => None
  end.

(** *** Handlers as programs *)

(** What a handler can do besides returning: call a state setter or
    [alert]. *)
Inductive Cmd : Type :=
| setDesignerForm (v : DesignerForm.t)
| setPortfolioForm (v : PortfolioForm.t)
| setNewSkill (v : jsstring)
| setNewSocial (v : SocialLink.t)
| setEditContact (v : bool)
| setEditPortfolio (v : bool)
| alert (msg : jsstring).

(** A handler body: a sequence of commands, possibly suspended on the
    promise of a remote mutation ([await]). *)
Inductive Handler : Type :=
| Return : Handler
| Do : Cmd -> Handler -> Handler
| Await : Mutation -> Handler -> Handler.

Declare Scope handler_scope.
Delimit Scope handler_scope with handler.
Bind Scope handler_scope with Handler.
Notation "c ';;' k" := (Do c k)
  (at level 61, right associativity) : handler_scope.
Notation "'await' m ';;' k" := (Await m k)
  (at level 61, m at level 9, right associativity) : handler_scope.

(** What the outside world observes of a handler. *)
Inductive Event : Type :=
| Alerted (msg : jsstring)
| Resolved (m : Mutation)
| Rejected (m : Mutation).

Definition exec (c : Cmd) (st : State) : State * list Event :=
  match c with
  | setDesignerForm v =>
      (mkState (designerProfile st) (portfolio st) v (portfolioForm st)
         (newSkill st) (newSocial st) (editContact st) (editPortfolio st), [])
  | setPortfolioForm v =>
      (mkState (designerProfile st) (portfolio st) (designerForm st) v
         (newSkill st) (newSocial st) (editContact st) (editPortfolio st), [])
  | setNewSkill v =>
      (mkState (designerProfile st) (portfolio st) (designerForm st)
         (portfolioForm st) v (newSocial st) (editContact st)
         (editPortfolio st), [])
  | setNewSocial v =>
      (mkState (designerProfile st) (portfolio st) (designerForm st)
         (portfolioForm st) (newSkill st) v (editContact st)
         (editPortfolio st), [])
  | setEditContact v =>
      (mkState (designerProfile st) (portfolio st) (designerForm st)
         (portfolioForm st) (newSkill st) (newSocial st) v
         (editPortfolio st), [])
  | setEditPortfolio v =>
      (mkState (designerProfile st) (portfolio st) (designerForm st)
         (portfolioForm st) (newSkill st) (newSocial st) (editContact st)
         v, [])
  | alert msg => (st, [Alerted msg])
  end.

(** Running a handler body.  [remote m] tells whether the backing store
    accepts the mutation [m]: the promise then resolves and the body goes
    on; otherwise it rejects, and as no handler catches the rejection the
    rest of the body is skipped. *)
Fixpoint run (remote : Mutation -> bool) (h : Handler) (st : State)
    : State * list Event :=
  match h with
  | Return => (st, [])
  | Do c k =>
      let (st1, ev1) := exec c st in
      let (st2, ev2) := run remote k st1 in
      (st2, ev1 ++ ev2)
  | Await m k =>
      if remote m then
        let (st1, ev1) := run remote k st in
        (st1, Resolved m :: ev1)
      else (st, [Rejected m])
  end.

(** A handler is built from the values of the render it was created in and
    runs against that same state when its event fires. *)
Definition fire (remote : Mutation -> bool) (handler : State -> Handler)
    (st : State) : State * list Event :=
  run remote (handler st) st.

(** *** Skills handling *)

Definition addSkill (st : State) : Handler :=
  if truthy (trim (newSkill st))
     && negb (includes (PortfolioForm.skills (portfolioForm st))
                (trim (newSkill st)))
  then
    (setPortfolioForm
       (PortfolioForm.mk
          (PortfolioForm.title (portfolioForm st))
          (PortfolioForm.description (portfolioForm st))
          (PortfolioForm.specialization (portfolioForm st))
          (PortfolioForm.skills (portfolioForm st) ++ [trim (newSkill st)])
          (PortfolioForm.social_links (portfolioForm st))) ;;
     setNewSkill [] ;;
     Return)%handler
  else Return.

Definition removeSkill (skill : jsstring) (st : State) : Handler :=
  (setPortfolioForm
     (PortfolioForm.mk
        (PortfolioForm.title (portfolioForm st))
        (PortfolioForm.description (portfolioForm st))
        (PortfolioForm.specialization (portfolioForm st))
        (filter (fun s => negb (strictEq s skill))
           (PortfolioForm.skills (portfolioForm st)))
        (PortfolioForm.social_links (portfolioForm st))) ;;
   Return)%handler.

(** The [onChange] of the skill input: [setNewSkill(e.target.value)]. *)
Definition onChangeNewSkill (value : jsstring) (_ : State) : Handler :=
  (setNewSkill value ;; Return)%handler.

(** *** Social links handling *)

Definition addSocialLink (st : State) : Handler :=
  if truthy (trim (SocialLink.platform (newSocial st)))
     && truthy (trim (SocialLink.url (newSocial st)))
  then
    (setPortfolioForm
       (PortfolioForm.mk
          (PortfolioForm.title (portfolioForm st))
          (PortfolioForm.description (portfolioForm st))
          (PortfolioForm.specialization (portfolioForm st))
          (PortfolioForm.skills (portfolioForm st))
          (PortfolioForm.social_links (portfolioForm st)
             ++ [SocialLink.mk (trim (SocialLink.platform (newSocial st)))
                   (trim (SocialLink.url (newSocial st)))])) ;;
     setNewSocial (SocialLink.mk [] []) ;;
     Return)%handler
  else Return.

(** [index] is a JavaScript number; the integers are modelled, a value that
    is no integer equals no array index, like an integer out of range. *)
Definition removeSocialLink (index : Z) (st : State) : Handler :=
  (setPortfolioForm
     (PortfolioForm.mk
        (PortfolioForm.title (portfolioForm st))
        (PortfolioForm.description (portfolioForm st))
        (PortfolioForm.specialization (portfolioForm st))
        (PortfolioForm.skills (portfolioForm st))
        (filterIndex (fun i => negb (Z.of_nat i =? index)%Z)
           (PortfolioForm.social_links (portfolioForm st)))) ;;
   Return)%handler.

(** *** Seeding the forms from the query results (the two effects) *)

(** [o ?? d] *)
Definition nullish (A : Type) (o : option A) (d : A) : A :=
  match o with
  | Some v => v
  | None => d
  end.

Definition seedDesignerForm (st : State) : Handler :=
  match designerProfile st with
  | Loaded d =>
      (setDesignerForm
         (DesignerForm.mk
            (nullish (DesignerRecord.contact_number d) [])
            (nullish (DesignerRecord.address d) [])) ;;
       Return)%handler
  | Null => Return
  | Undefined => Return
  end.

Definition seedPortfolioForm (st : State) : Handler :=
  match currentPortfolio st with
  | Some p =>
      (setPortfolioForm
         (PortfolioForm.mk
            (nullish (PortfolioRecord.title p) [])
            (nullish (PortfolioRecord.description p) [])
            (nullish (PortfolioRecord.specialization p) [])
            (nullish (PortfolioRecord.skills p) [])
            (nullish (PortfolioRecord.social_links p) [])) ;;
       Return)%handler
  | None => Return
  end.

(** *** Save functions *)

(** U+2705 followed by a space: the prefix of both confirmations. *)
Definition checkMark : jsstring := 9989%N :: lit " ".

(** U+26A0 U+FE0F followed by a space: the prefix of the warning. *)
Definition warningSign : jsstring := 9888%N :: 65039%N :: lit " ".

Definition contactUpdatedMsg : jsstring :=
  checkMark ++ lit "Contact info updated".

Definition completeFieldsMsg : jsstring :=
  warningSign ++ lit "Please complete all portfolio fields before saving.".

Definition portfolioSavedMsg : jsstring :=
  checkMark ++ lit "Portfolio saved".

Definition saveContactInfo (st : State) : Handler :=
  match designerProfile st with
  | Loaded d =>
      if negb (truthy (idString (DesignerRecord._id d))) then Return
      else
        (await (updateDesigner
                  (UpdateDesigner.mk
                     (DesignerRecord._id d)
                     (DesignerForm.contact_number (designerForm st))
                     (DesignerForm.address (designerForm st)))) ;;
         setEditContact false ;;
         alert contactUpdatedMsg ;;
         Return)%handler
  | Null => Return
  | Undefined => Return
  end.

Definition savePortfolio (st : State) : Handler :=
  match currentPortfolio st with
  | Some p =>
      if negb (truthy (idString (PortfolioRecord._id p))) then Return
      else if
        negb (truthy (trim (PortfolioForm.title (portfolioForm st))))
        || negb (truthy (trim (PortfolioForm.description (portfolioForm st))))
        || negb (truthy
                   (trim (PortfolioForm.specialization (portfolioForm st))))
        || (List.length (PortfolioForm.skills (portfolioForm st)) =? 0)%nat
      then (alert completeFieldsMsg ;; Return)%handler
      else
        (await (updatePortfolio
                  (UpdatePortfolio.mk
                     (PortfolioRecord._id p)
                     (PortfolioForm.title (portfolioForm st))
                     (PortfolioForm.description (portfolioForm st))
                     (PortfolioForm.specialization (portfolioForm st))
                     (PortfolioForm.skills (portfolioForm st))
                     (PortfolioForm.social_links (portfolioForm st)))) ;;
         setEditPortfolio false ;;
         alert portfolioSavedMsg ;;
         Return)%handler
  | None => Return
  end.

(** *** Observations and compound interactions *)

(** The mutations a run handed to the backing store, accepted or not. *)
Definition submitted (evs : list Event) : list Mutation :=
  flat_map (fun e =>
              match e with
              | Alerted _ => []
              | Resolved m => [m]
              | Rejected m => [m]
              end) evs.

(** The state a handler leaves behind. *)
Definition after (remote : Mutation -> bool) (handler : State -> Handler)
    (st : State) : State :=
  fst (fire remote handler st).

(** Adding the skill [s]: the user types [s] in the skill input, the
    component renders again, and the add button is pressed. *)
Definition enterSkill (remote : Mutation -> bool) (s : jsstring)
    (st : State) : State :=
  after remote addSkill (after remote (onChangeNewSkill s) st).

(** The skills of the form. *)
Definition formSkills (st : State) : list jsstring :=
  PortfolioForm.skills (portfolioForm st).

(** The social links of the form. *)
Definition formLinks (st : State) : list SocialLink.t :=
  PortfolioForm.social_links (portfolioForm st).

(** Number of occurrences of a string in an array of strings. *)
Definition occurrences (x : jsstring) (arr : list jsstring) : nat :=
  count_occ (list_eq_dec N.eq_dec) arr x.

(** The validation of [savePortfolio] as a proposition: a required text is
    empty once trimmed, or there is no skill. *)
Definition incomplete (f : PortfolioForm.t) : Prop :=
  trim (PortfolioForm.title f) = []
  \/ trim (PortfolioForm.description f) = []
  \/ trim (PortfolioForm.specialization f) = []
  \/ PortfolioForm.skills f = [].

(** The arguments [savePortfolio] sends for the record [p]. *)
Definition portfolioArgs (p : PortfolioRecord.t) (f : PortfolioForm.t)
    : UpdatePortfolio.t :=
  UpdatePortfolio.mk (PortfolioRecord._id p)
    (PortfolioForm.title f) (PortfolioForm.description f)
    (PortfolioForm.specialization f) (PortfolioForm.skills f)
    (PortfolioForm.social_links f).

(** The arguments [saveContactInfo] sends for the record [d]. *)
Definition designerArgs (d : DesignerRecord.t) (f : DesignerForm.t)
    : UpdateDesigner.t :=
  UpdateDesigner.mk (DesignerRecord._id d)
    (DesignerForm.contact_number f) (DesignerForm.address f).

(** [st] with the portfolio section back in its read view. *)
Definition portfolioEditClosed (st : State) : State :=
  mkState (designerProfile st) (portfolio st) (designerForm st)
    (portfolioForm st) (newSkill st) (newSocial st) (editContact st) false.

(** [st] with the contact section back in its read view. *)
Definition contactEditClosed (st : State) : State :=
  mkState (designerProfile st) (portfolio st) (designerForm st)
    (portfolioForm st) (newSkill st) (newSocial st) false (editPortfolio st).

(** *** Checks *)

(** [!xs || xs.length === 0] on an optional array. *)
Definition absentOrNoElement (A : Type) (xs : option (list A)) : bool :=
  match xs with
  | None => true
  | Some l => (List.length l =? 0)%nat
  end.

Definition isPortfolioEmpty (st : State) : bool :=
  match currentPortfolio st with
  | None => true
  | Some p =>
      negb (truthyOpt (PortfolioRecord.title p))
      && negb (truthyOpt (PortfolioRecord.description p))
      && negb (truthyOpt (PortfolioRecord.specialization p))
      && absentOrNoElement (PortfolioRecord.skills p)
      && absentOrNoElement (PortfolioRecord.social_links p)
  end.

(** [!v || v.trim().toLowerCase() === "na"] on an optional string; the
    second operand is only evaluated on a non-empty string. *)
Definition falsyOrNa (v : option jsstring) : bool :=
  match v with
  | None => true
  | Some s =>
      negb (truthy s) || strictEq (toLowerCase (trim s)) (lit "na")
  end.

Definition isContactInfoEmpty (st : State) : bool :=
  match designerProfile st with
  | Loaded d =>
      falsyOrNa (DesignerRecord.contact_number d)
      || falsyOrNa (DesignerRecord.address d)
  | Null => true
  | Undefined => true
  end.

(** *** The emptiness predicates in the words of the specification *)

(** An optional text is absent or empty. *)
Definition absentOrEmpty (A : Type) (v : option (list A)) : Prop :=
  v = None \/ v = Some [].

(** An optional text or array is populated: present with an element. *)
Definition populated (A : Type) (v : option (list A)) : Prop :=
  exists l, v = Some l /\ l <> [].

(** An optional text is the sentinel: present and equal to [na] once
    trimmed and lower-cased. *)
Definition isSentinel (v : option jsstring) : Prop :=
  exists s, v = Some s /\ toLowerCase (trim s) = lit "na".

(** The designer record is absent. *)
Definition designerAbsent (st : State) : Prop :=
  designerProfile st = Null \/ designerProfile st = Undefined.

(** Contact info is empty, as the specification words it: the record or
    one of the two fields is absent, or one of the two fields is the
    sentinel. *)
Definition specContactInfoEmpty (st : State) : Prop :=
  designerAbsent st
  \/ exists d, designerProfile st = Loaded d
       /\ (DesignerRecord.contact_number d = None
           \/ DesignerRecord.address d = None
           \/ isSentinel (DesignerRecord.contact_number d)
           \/ isSentinel (DesignerRecord.address d)).

(** Contact info is empty, as the component decides it: a field that is
    present but the empty string counts like an absent one. *)
Definition contactInfoUnset (st : State) : Prop :=
  designerAbsent st
  \/ exists d, designerProfile st = Loaded d
       /\ (absentOrEmpty (DesignerRecord.contact_number d)
           \/ absentOrEmpty (DesignerRecord.address d)
           \/ isSentinel (DesignerRecord.contact_number d)
           \/ isSentinel (DesignerRecord.address d)).

(** A portfolio is empty, as the specification words it. *)
Definition specPortfolioEmpty (st : State) : Prop :=
  currentPortfolio st = None
  \/ exists p, currentPortfolio st = Some p
       /\ absentOrEmpty (PortfolioRecord.title p)
       /\ absentOrEmpty (PortfolioRecord.description p)
       /\ absentOrEmpty (PortfolioRecord.specialization p)
       /\ absentOrEmpty (PortfolioRecord.skills p)
       /\ absentOrEmpty (PortfolioRecord.social_links p).

End Portfolio.

(** ** The markup of the portfolio page: inline handlers and views *)

Module PortfolioUi.

Import Js Convex Portfolio.

(** *** The inline [onChange] and [onClick] handlers *)

Definition onChangeContactNumber (value : jsstring) (st : State) : Handler :=
  (setDesignerForm
     (DesignerForm.mk value (DesignerForm.address (designerForm st))) ;;
   Return)%handler.

Definition onChangeAddress (value : jsstring) (st : State) : Handler :=
  (setDesignerForm
     (DesignerForm.mk (DesignerForm.contact_number (designerForm st))
        value) ;;
   Return)%handler.

Definition onChangeTitle (value : jsstring) (st : State) : Handler :=
  (setPortfolioForm
     (PortfolioForm.mk value
        (PortfolioForm.description (portfolioForm st))
        (PortfolioForm.specialization (portfolioForm st))
        (PortfolioForm.skills (portfolioForm st))
        (PortfolioForm.social_links (portfolioForm st))) ;;
   Return)%handler.

Definition onChangeDescription (value : jsstring) (st : State) : Handler :=
  (setPortfolioForm
     (PortfolioForm.mk
        (PortfolioForm.title (portfolioForm st))
        value
        (PortfolioForm.specialization (portfolioForm st))
        (PortfolioForm.skills (portfolioForm st))
        (PortfolioForm.social_links (portfolioForm st))) ;;
   Return)%handler.

Definition onChangeSpecialization (value : jsstring) (st : State)
    : Handler :=
  (setPortfolioForm
     (PortfolioForm.mk
        (PortfolioForm.title (portfolioForm st))
        (PortfolioForm.description (portfolioForm st))
        value
        (PortfolioForm.skills (portfolioForm st))
        (PortfolioForm.social_links (portfolioForm st))) ;;
   Return)%handler.

Definition onChangePlatform (value : jsstring) (st : State) : Handler :=
  (setNewSocial (SocialLink.mk value (SocialLink.url (newSocial st))) ;;
   Return)%handler.

Definition onChangeUrl (value : jsstring) (st : State) : Handler :=
  (setNewSocial (SocialLink.mk (SocialLink.platform (newSocial st)) value) ;;
   Return)%handler.

(** The two buttons of a read view ([Set up ...] and [Edit]) and the
    [Cancel] button of an editor. *)
Definition openContact (_ : State) : Handler :=
  (setEditContact true ;; Return)%handler.

Definition cancelContact (_ : State) : Handler :=
  (setEditContact false ;; Return)%handler.

Definition openPortfolio (_ : State) : Handler :=
  (setEditPortfolio true ;; Return)%handler.

Definition cancelPortfolio (_ : State) : Handler :=
  (setEditPortfolio false ;; Return)%handler.

(** *** What the user can do on the page *)

Inductive UiEvent : Type :=
| TypeContactNumber (value : jsstring)
| TypeAddress (value : jsstring)
| TypeTitle (value : jsstring)
| TypeDescription (value : jsstring)
| TypeSpecialization (value : jsstring)
| TypeSkill (value : jsstring)
| TypePlatform (value : jsstring)
| TypeUrl (value : jsstring)
| PressAddSkill
| PressRemoveSkill (skill : jsstring)
| PressAddSocialLink
| PressRemoveSocialLink (index : Z)
| PressOpenContact
| PressCancelContact
| PressSaveContact
| PressOpenPortfolio
| PressCancelPortfolio
| PressSavePortfolio.

Definition handlerOf (e : UiEvent) : State -> Handler :=
  match e with
  | TypeContactNumber v => onChangeContactNumber v
  | TypeAddress v => onChangeAddress v
  | TypeTitle v => onChangeTitle v
  | TypeDescription v => onChangeDescription v
  | TypeSpecialization v => onChangeSpecialization v
  | TypeSkill v => onChangeNewSkill v
  | TypePlatform v => onChangePlatform v
  | TypeUrl v => onChangeUrl v
  | PressAddSkill => addSkill
  | PressRemoveSkill skill => removeSkill skill
  | PressAddSocialLink => addSocialLink
  | PressRemoveSocialLink index => removeSocialLink index
  | PressOpenContact => openContact
  | PressCancelContact => cancelContact
  | PressSaveContact => saveContactInfo
  | PressOpenPortfolio => openPortfolio
  | PressCancelPortfolio => cancelPortfolio
  | PressSavePortfolio => savePortfolio
  end.

(** One event: the handler of the current render runs, the component
    renders again. *)
Definition dispatch (remote : Mutation -> bool) (e : UiEvent) (st : State)
    : State :=
  after remote (handlerOf e) st.

(** A sequence of events, first to last. *)
Definition session (remote : Mutation -> bool) (es : list UiEvent)
    (st : State) : State :=
  fold_left (fun s e => dispatch remote e s) es st.

(** Adding a social link: the user types both parts, then presses add. *)
Definition enterSocialLink (remote : Mutation -> bool)
    (platform url : jsstring) (st : State) : State :=
  session remote [TypePlatform platform; TypeUrl url; PressAddSocialLink] st.

(** *** Properties of strings the page relies on *)

(** The first and the last code unit are no white space. *)
Definition edgesClean (s : jsstring) : Prop :=
  (exists c r, s = c :: r /\ isWhiteSpace c = false)
  /\ (exists r c, s = r ++ [c] /\ isWhiteSpace c = false).

(** Every code unit is white space. *)
Definition allWhiteSpace (s : jsstring) : Prop :=
  Forall (fun c => isWhiteSpace c = true) s.


(** The parts of a link are not empty and have clean edges. *)
Definition linkClean (l : SocialLink.t) : Prop :=
  edgesClean (SocialLink.platform l) /\ edgesClean (SocialLink.url l).

(** The form holds what only the add buttons let in: skills without
    repetition, skills and link parts with clean edges. *)
Definition formTidy (st : State) : Prop :=
  NoDup (formSkills st)
  /\ Forall edgesClean (formSkills st)
  /\ Forall linkClean (formLinks st).

(** *** Views *)

(** [arr.join(sep)] on an array of strings. *)
Fixpoint join (sep : jsstring) (arr : list jsstring) : jsstring :=
  match arr with
  | [] => []
  | [x] => x
  | x :: r => x ++ sep ++ join sep r
  end.

(** [a || d] on an optional string. *)
Definition orDefault (a : option jsstring) (d : jsstring) : jsstring :=
  match a with
  | Some s => if truthy s then s else d
  | None => d
  end.

(** [arr.map((x, idx) => f(x, idx))], indices counted from [from]. *)
Fixpoint mapIndexFrom (A B : Type) (from : nat) (f : A -> nat -> B)
    (arr : list A) : list B :=
  match arr with
  | [] => []
  | x :: r => f x from :: mapIndexFrom (S from) f r
  end.

(** The contact section: the prompt to set the information up, the stored
    values with an [Edit] button, or the two inputs with [Cancel] and
    [Save]. *)
Inductive ContactSection : Type :=
| ContactPrompt
| ContactDetails (phone address : option jsstring)
| ContactEditor (contact_number address : jsstring).

Definition contactSection (st : State) : ContactSection :=
  if negb (editContact st) then
    if isContactInfoEmpty st then ContactPrompt
    else
      ContactDetails
        (match designerProfile st with
         | Loaded d => DesignerRecord.contact_number d
         | Null => None
         | Undefined => None
         end)
        (match designerProfile st with
         | Loaded d => DesignerRecord.address d
         | Null => None
         | Undefined => None
         end)
  else
    ContactEditor (DesignerForm.contact_number (designerForm st))
      (DesignerForm.address (designerForm st)).

(** The portfolio section: the prompt, the stored values with their
    fall-back texts, or the editor, whose chips carry the event of their
    remove button. *)
Inductive PortfolioSection : Type :=
| PortfolioPrompt
| PortfolioDetails (titleText descriptionText specializationText
                    skillsText : jsstring) (links : list SocialLink.t)
| PortfolioEditor (form : PortfolioForm.t) (skillInput : jsstring)
    (socialInput : SocialLink.t)
    (skillChips : list (jsstring * UiEvent))
    (linkChips : list (SocialLink.t * UiEvent)).

Definition skillChipsOf (st : State) : list (jsstring * UiEvent) :=
  map (fun skill => (skill, PressRemoveSkill skill)) (formSkills st).

Definition linkChipsOf (st : State) : list (SocialLink.t * UiEvent) :=
  mapIndexFrom 0
    (fun link idx => (link, PressRemoveSocialLink (Z.of_nat idx)))
    (formLinks st).

Definition portfolioSection (st : State) : PortfolioSection :=
  if negb (editPortfolio st) then
    if isPortfolioEmpty st then PortfolioPrompt
    else
      match currentPortfolio st with
      | Some p =>
          PortfolioDetails
            (orDefault (PortfolioRecord.title p) (lit "Untitled"))
            (orDefault (PortfolioRecord.description p)
               (lit "No description yet"))
            (orDefault (PortfolioRecord.specialization p)
               (lit "Not specified"))
            (orDefault
               (match PortfolioRecord.skills p with
                | Some l => Some (join (lit ", ") l)
                | None => None
                end)
               (lit "No skills added"))
            (nullish (PortfolioRecord.social_links p) [])
      | None =>
          PortfolioDetails (lit "Untitled") (lit "No description yet")
            (lit "Not specified") (lit "No skills added") []
      end
  else
    PortfolioEditor (portfolioForm st) (newSkill st) (newSocial st)
      (skillChipsOf st) (linkChipsOf st).

End PortfolioUi.

(** ** The portfolio page and its subscriptions *)

Module PortfolioPage.

Import Js Convex Portfolio PortfolioUi.

(** The render after the designer query delivered [q]. *)
Definition withDesignerProfile (q : Query DesignerRecord.t) (st : State)
    : State :=
  mkState q (portfolio st) (designerForm st) (portfolioForm st)
    (newSkill st) (newSocial st) (editContact st) (editPortfolio st).

(** The render after the portfolio query delivered [q]. *)
Definition withPortfolio (q : Query (list PortfolioRecord.t)) (st : State)
    : State :=
  mkState (designerProfile st) q (designerForm st) (portfolioForm st)
    (newSkill st) (newSocial st) (editContact st) (editPortfolio st).

(** What happens on the page: the user does something, or a subscribed
    query delivers a new result.  An effect runs after the render when its
    dependency ([designerProfile], [currentPortfolio]) is another object
    than in the render before; values do not tell objects apart, so the
    delivery says whether it is ([changed]). *)
Inductive PageEvent : Type :=
| User (e : UiEvent)
| DesignerDelivered (q : Query DesignerRecord.t) (changed : bool)
| PortfolioDelivered (q : Query (list PortfolioRecord.t)) (changed : bool).

Definition deliver (remote : Mutation -> bool) (ev : PageEvent) (st : State)
    : State :=
  match ev with
  | User e => dispatch remote e st
  | DesignerDelivered q changed =>
      if changed
      then after remote seedDesignerForm (withDesignerProfile q st)
      else withDesignerProfile q st
  | PortfolioDelivered q changed =>
      if changed
      then after remote seedPortfolioForm (withPortfolio q st)
      else withPortfolio q st
  end.

(** A sequence of page events, first to last. *)
Definition pageSession (remote : Mutation -> bool) (evs : list PageEvent)
    (st : State) : State :=
  fold_left (fun s ev => deliver remote ev s) evs st.

(** A stored portfolio lists no skill twice, only skills with clean edges
    and only links with clean-edged parts. *)
Definition recordTidy (p : PortfolioRecord.t) : Prop :=
  NoDup (nullish (PortfolioRecord.skills p) [])
  /\ Forall edgesClean (nullish (PortfolioRecord.skills p) [])
  /\ Forall linkClean (nullish (PortfolioRecord.social_links p) []).

(** The record a delivery makes current, if any, is tidy. *)
Definition deliveryTidy (ev : PageEvent) : Prop :=
  match ev with
  | PortfolioDelivered (Loaded (p :: _)) _ => recordTidy p
  | PortfolioDelivered _ _ => True
  | DesignerDelivered _ _ => True
  | User _ => True
  end.

End PortfolioPage.

(** ** The project list: [src/pages/client/ProjectsSection.tsx] *)

Module Projects.

Import Js Convex.

(** The closed enumeration of [design_requests.status] in the schema. *)
Inductive Status : Type := pending | approved | rejected.

Definition statusText (s : Status) : jsstring :=
  match s with
  | pending => lit "pending"
  | approved => lit "approved"
  | rejected => lit "rejected"
  end.

(** The designer object a request may carry. *)
Module Designer.
Record t : Type := mk { full_name : option jsstring }.
End Designer.

(** The fields of an element of [requests] the component reads. *)
Module Request.
Record t : Type := mk {
  _id : Id;
  request_title : jsstring;
  status : Status;
  tshirt_type : option jsstring;
  designer : option Designer.t
}.
End Request.

(** One rendered card: its React key, the text of the heading, of the
    status badge, of the two labelled values, and the route its button
    navigates to. *)
Record Card : Type := mkCard {
  key : Id;
  heading : jsstring;
  badge : jsstring;
  typeValue : option jsstring;
  designerValue : jsstring;
  detailsRoute : jsstring
}.

(** What the component returns. *)
Inductive View : Type :=
| CallToAction (message buttonLabel route : jsstring)
| ProjectGrid (gridHeading : jsstring) (cards : list Card).

(** [a || d] on an optional string. *)
Definition orElse (a : option jsstring) (d : jsstring) : jsstring :=
  match a with
  | Some s => if truthy s then s else d
  | None => d
  end.

(** [project.designer?.full_name] *)
Definition designerFullName (project : Request.t) : option jsstring :=
  match Request.designer project with
  | Some d => Designer.full_name d
  | None => None
  end.

Definition renderCard (project : Request.t) : Card :=
  mkCard
    (Request._id project)
    (Request.request_title project)
    (statusText (Request.status project))
    (Request.tshirt_type project)
    (orElse (designerFullName project) (lit "Unassigned"))
    (lit "/client/requests/" ++ idString (Request._id project)).

Definition ProjectsSection (requests : list Request.t) : View :=
  if (List.length requests =? 0)%nat then
    CallToAction (lit "No active projects found.")
      (lit "Create Your First Request")
      (lit "/client/requests/new")
  else ProjectGrid (lit "My Projects") (map renderCard requests).

End Projects.

(** ** Sample records and states *)

Module Examples.

Import Js Convex Portfolio Projects.

Local Open Scope N_scope.

(** A backing store that takes every mutation, and one that takes none. *)
Definition accepting : Mutation -> bool := fun _ => true.
Definition refusing : Mutation -> bool := fun _ => false.

Definition userId : Id := mkId 117 (lit "1").
Definition designerId : Id := mkId 100 (lit "1").
Definition portfolioId : Id := mkId 112 (lit "1").
Definition requestId (n : codeUnit) : Id := mkId 114 [n].

Definition noLink : SocialLink.t := SocialLink.mk [] [].
Definition behance : SocialLink.t :=
  SocialLink.mk (lit "Behance") (lit "https://behance.net/ana").

(** A designer with both contact fields filled in. *)
Definition designerSet : DesignerRecord.t :=
  DesignerRecord.mk designerId userId
    (Some (lit "0917 555 0101")) (Some (lit "12 Mabini St")) None.

(** A designer whose stored contact number is the empty string. *)
Definition designerNoPhone : DesignerRecord.t :=
  DesignerRecord.mk designerId userId
    (Some (lit "")) (Some (lit "12 Mabini St")) None.

(** A portfolio row that has just been created: nothing filled in. *)
Definition portfolioBlank : PortfolioRecord.t :=
  PortfolioRecord.mk portfolioId designerId None None None None None.

(** A stored portfolio whose skills list one skill twice. *)
Definition portfolioTwice : PortfolioRecord.t :=
  PortfolioRecord.mk portfolioId designerId
    (Some (lit "Logos")) (Some (lit "Sports logos")) (Some (lit "Jerseys"))
    (Some [lit "ui"; lit "ui"]) None.

(** The page of a signed-in user for whom no designer record exists, with
    the contact section opened for editing and filled in. *)
Definition stNoDesigner : State :=
  mkState Null Undefined
    (DesignerForm.mk (lit "0917 555 0101") (lit "12 Mabini St"))
    (PortfolioForm.mk (lit "T") (lit "D") (lit "S") [lit "x"] [])
    [] noLink true true.

(** The page of [designerNoPhone]. *)
Definition stNoPhone : State :=
  mkState (Loaded designerNoPhone) (Loaded [portfolioBlank])
    (DesignerForm.mk [] (lit "12 Mabini St"))
    (PortfolioForm.mk [] [] [] [] [])
    [] noLink false false.

(** The page of [designerSet], both sections in edit mode, the portfolio
    form filled in as in the specification's example. *)
Definition stComplete : State :=
  mkState (Loaded designerSet) (Loaded [portfolioBlank])
    (DesignerForm.mk (lit "0917 555 0101") (lit "12 Mabini St"))
    (PortfolioForm.mk (lit "T") (lit "D") (lit "S") [lit "x"] [behance])
    (lit " ux ") (SocialLink.mk (lit " Dribbble ") (lit " https://d.co/a "))
    true true.

(** The same page with no skill in the form. *)
Definition stNoSkill : State :=
  mkState (Loaded designerSet) (Loaded [portfolioBlank])
    (DesignerForm.mk (lit "0917 555 0101") (lit "12 Mabini St"))
    (PortfolioForm.mk (lit "T") (lit "D") (lit "S") [] [behance])
    (lit " x ") (SocialLink.mk (lit " Dribbble ") (lit "   "))
    true true.

(** The page after the form was seeded from [portfolioTwice]. *)
Definition stSeededTwice : State :=
  after accepting seedPortfolioForm
    (mkState (Loaded designerSet) (Loaded [portfolioTwice])
       (DesignerForm.mk [] []) (PortfolioForm.mk [] [] [] [] [])
       [] noLink false true).

(** Two requests, the first without a designer. *)
Definition requestOpen : Request.t :=
  Request.mk (requestId 49) (lit "Team jersey") pending
    (Some (lit "jersey")) None.

Definition requestTaken : Request.t :=
  Request.mk (requestId 50) (lit "Staff polo") approved
    (Some (lit "polo")) (Some (Designer.mk (Some (lit "Ana Cruz")))).

(** The page of [designerSet] with [portfolioTwice] stored, both sections
    in their read view. *)
Definition stReading : State :=
  mkState (Loaded designerSet) (Loaded [portfolioTwice])
    (DesignerForm.mk [] []) (PortfolioForm.mk [] [] [] [] [])
    [] noLink false false.

(** A stored portfolio as a save of [stComplete] leaves it. *)
Definition portfolioSaved : PortfolioRecord.t :=
  PortfolioRecord.mk portfolioId designerId
    (Some (lit "T")) (Some (lit "D")) (Some (lit "S"))
    (Some [lit "x"]) (Some [behance]).

(** A stay on the page: the queries answer, the user enters a skill twice
    and a link, saves, the portfolio query delivers the saved record and
    the form is seeded again, the user removes a skill. *)
Definition samplePageSession : list PortfolioPage.PageEvent :=
  [PortfolioPage.DesignerDelivered (Loaded designerSet) true;
   PortfolioPage.PortfolioDelivered (Loaded [portfolioBlank]) true;
   PortfolioPage.User PortfolioUi.PressOpenPortfolio;
   PortfolioPage.User (PortfolioUi.TypeTitle (lit "T"));
   PortfolioPage.User (PortfolioUi.TypeDescription (lit "D"));
   PortfolioPage.User (PortfolioUi.TypeSpecialization (lit "S"));
   PortfolioPage.User (PortfolioUi.TypeSkill (lit " x "));
   PortfolioPage.User PortfolioUi.PressAddSkill;
   PortfolioPage.User (PortfolioUi.TypeSkill (lit "x"));
   PortfolioPage.User PortfolioUi.PressAddSkill;
   PortfolioPage.User (PortfolioUi.TypePlatform (lit "Behance"));
   PortfolioPage.User (PortfolioUi.TypeUrl (lit "https://behance.net/ana"));
   PortfolioPage.User PortfolioUi.PressAddSocialLink;
   PortfolioPage.User PortfolioUi.PressSavePortfolio;
   PortfolioPage.PortfolioDelivered (Loaded [portfolioSaved]) true;
   PortfolioPage.User PortfolioUi.PressOpenPortfolio;
   PortfolioPage.User (PortfolioUi.PressRemoveSkill (lit "x"))].

End Examples.

(** * Properties *)

Import Js Convex Portfolio Examples.

(** ** Strings and arrays *)

Lemma strictEq_eq (a b : jsstring) : strictEq a b = true <-> a = b.
Proof.
  revert b; induction a as [|x a IH]; intros [|y b]; simpl;
    try (split; [discriminate | discriminate]); try tauto.
  rewrite andb_true_iff, N.eqb_eq, IH.
  split; [intros [-> ->]; reflexivity | intros E; injection E; auto].
Qed.

Lemma strictEq_refl (a : jsstring) : strictEq a a = true.
Proof. apply strictEq_eq; reflexivity. Qed.

Lemma includes_In (arr : list jsstring) (x : jsstring) :
  includes arr x = true <-> In x arr.
Proof.
  unfold includes; rewrite existsb_exists; split.
  - intros [y [Hy E]]; apply strictEq_eq in E; subst; exact Hy.
  - intros H; exists x; split; [exact H | apply strictEq_refl].
Qed.

Lemma includes_false (arr : list jsstring) (x : jsstring) :
  includes arr x = false <-> ~ In x arr.
Proof.
  rewrite <- includes_In; destruct (includes arr x); split; intros H;
    try reflexivity; try discriminate; try (intros E; discriminate E).
  exfalso; apply H; reflexivity.
Qed.

Lemma truthy_true (s : jsstring) : truthy s = true <-> s <> [].
Proof. destruct s; simpl; split; congruence. Qed.

Lemma truthy_false (s : jsstring) : truthy s = false <-> s = [].
Proof. destruct s; simpl; split; congruence. Qed.

Lemma occurrences_app (x : jsstring) (l1 l2 : list jsstring) :
  occurrences x (l1 ++ l2) = occurrences x l1 + occurrences x l2.
Proof. unfold occurrences; apply count_occ_app. Qed.

Lemma occurrences_self (x : jsstring) : occurrences x [x] = 1.
Proof.
  unfold occurrences; simpl.
  destruct (list_eq_dec N.eq_dec x x); [reflexivity | congruence].
Qed.

Lemma occurrences_zero (x : jsstring) (l : list jsstring) :
  ~ In x l <-> occurrences x l = 0.
Proof. unfold occurrences; apply count_occ_not_In. Qed.

Lemma occurrences_pos (x : jsstring) (l : list jsstring) :
  In x l <-> occurrences x l > 0.
Proof. unfold occurrences; apply count_occ_In. Qed.

(** ** Skill set editing *)

Section Skills.

Variable remote : Mutation -> bool.

(** What [addSkill] does, read off its body: one branch rewrites the form
    and clears the input, the other does nothing at all. *)
Lemma addSkill_fire (st : State) :
  fire remote addSkill st =
  if truthy (trim (newSkill st))
     && negb (includes (formSkills st) (trim (newSkill st)))
  then
    (mkState (designerProfile st) (portfolio st) (designerForm st)
       (PortfolioForm.mk
          (PortfolioForm.title (portfolioForm st))
          (PortfolioForm.description (portfolioForm st))
          (PortfolioForm.specialization (portfolioForm st))
          (formSkills st ++ [trim (newSkill st)])
          (formLinks st))
       [] (newSocial st) (editContact st) (editPortfolio st), [])
  else (st, []).
Proof.
  unfold fire, addSkill, formSkills, formLinks.
  destruct (truthy (trim (newSkill st))
            && negb (includes (PortfolioForm.skills (portfolioForm st))
                       (trim (newSkill st)))); reflexivity.
Qed.

Lemma addSkill_rejects (st : State) :
  trim (newSkill st) = [] \/ In (trim (newSkill st)) (formSkills st) ->
  fire remote addSkill st = (st, []).
Proof.
  intros H; rewrite addSkill_fire.
  destruct H as [E | HIn].
  - rewrite E; reflexivity.
  - apply includes_In in HIn; rewrite HIn, andb_false_r; reflexivity.
Qed.

Lemma addSkill_appends (st : State) :
  trim (newSkill st) <> [] ->
  ~ In (trim (newSkill st)) (formSkills st) ->
  formSkills (after remote addSkill st)
  = formSkills st ++ [trim (newSkill st)].
Proof.
  intros Hne HnIn; unfold after; rewrite addSkill_fire.
  apply truthy_true in Hne; apply includes_false in HnIn.
  rewrite Hne, HnIn; reflexivity.
Qed.

Lemma onChangeNewSkill_after (s : jsstring) (st : State) :
  newSkill (after remote (onChangeNewSkill s) st) = s
  /\ portfolioForm (after remote (onChangeNewSkill s) st) = portfolioForm st.
Proof. split; reflexivity. Qed.

(** The skills after the user entered [s] once. *)
Lemma enterSkill_skills (s : jsstring) (st : State) :
  formSkills (enterSkill remote s st) =
  if truthy (trim s) && negb (includes (formSkills st) (trim s))
  then formSkills st ++ [trim s]
  else formSkills st.
Proof.
  unfold enterSkill.
  set (st1 := after remote (onChangeNewSkill s) st).
  assert (newSkill st1 = s) as En by reflexivity.
  assert (formSkills st1 = formSkills st) as Ef by reflexivity.
  unfold after; rewrite addSkill_fire, En, Ef.
  destruct (truthy (trim s) && negb (includes (formSkills st) (trim s)));
    [reflexivity | exact Ef].
Qed.

(** Entering a skill that is already listed changes no skill. *)
Lemma enterSkill_present (s : jsstring) (st : State) :
  In (trim s) (formSkills st) ->
  formSkills (enterSkill remote s st) = formSkills st.
Proof.
  intros H; rewrite enterSkill_skills.
  apply includes_In in H; rewrite H, andb_false_r; reflexivity.
Qed.

(** Entering the same skill a second time changes no skill. *)
Lemma enterSkill_twice (s : jsstring) (st : State) :
  formSkills (enterSkill remote s (enterSkill remote s st))
  = formSkills (enterSkill remote s st).
Proof.
  rewrite (enterSkill_skills s (enterSkill remote s st)).
  destruct (truthy (trim s)) eqn:Ht; [ | reflexivity].
  assert (In (trim s) (formSkills (enterSkill remote s st))) as HIn.
  { rewrite enterSkill_skills, Ht; simpl.
    destruct (includes (formSkills st) (trim s)) eqn:Hi; simpl.
    - apply includes_In; exact Hi.
    - apply in_or_app; right; left; reflexivity. }
  apply includes_In in HIn; rewrite HIn; reflexivity.
Qed.

(** Pressing the add button twice without typing in between adds at most
    once: the first press either changed nothing or cleared the input. *)
Lemma addSkill_pressed_twice (st : State) :
  formSkills (after remote addSkill (after remote addSkill st))
  = formSkills (after remote addSkill st).
Proof.
  set (st1 := after remote addSkill st).
  assert (newSkill st1 = [] \/ st1 = st) as [H | H].
  { unfold st1, after; rewrite addSkill_fire.
    destruct (truthy (trim (newSkill st))
              && negb (includes (formSkills st) (trim (newSkill st))));
      [left | right]; reflexivity. }
  - unfold after; rewrite (addSkill_fire st1), H; reflexivity.
  - rewrite H at 1; fold st1; reflexivity.
Qed.

(** C4.  [addSkill] works on the trimmed input.  When the trimmed input is
    empty, or is already among the skills (same code units, so case
    matters), nothing happens: the state is the same and nothing is
    observed.  Otherwise the trimmed input becomes the last skill, after all
    earlier ones in their order, and no other field of the form changes. *)
Theorem addSkill_spec (st : State) :
  let t := trim (newSkill st) in
  (t = [] \/ In t (formSkills st) -> fire remote addSkill st = (st, []))
  /\ (t <> [] /\ ~ In t (formSkills st) ->
      formSkills (after remote addSkill st) = formSkills st ++ [t]
      /\ PortfolioForm.title (portfolioForm (after remote addSkill st))
         = PortfolioForm.title (portfolioForm st)
      /\ PortfolioForm.description (portfolioForm (after remote addSkill st))
         = PortfolioForm.description (portfolioForm st)
      /\ PortfolioForm.specialization
           (portfolioForm (after remote addSkill st))
         = PortfolioForm.specialization (portfolioForm st)
      /\ formLinks (after remote addSkill st) = formLinks st).
Proof.
  intros t; split.
  - apply addSkill_rejects.
  - intros [Hne HnIn]; split; [apply addSkill_appends; assumption | ].
    unfold after; rewrite addSkill_fire.
    apply truthy_true in Hne; apply includes_false in HnIn.
    fold t; rewrite Hne, HnIn; repeat split.
Qed.

(** C3, as amended.  When the trimmed skill is not empty and the form does
    not already list it more than once, entering it twice in succession
    leaves exactly one occurrence of the trimmed skill. *)
Theorem enterSkill_twice_once (s : jsstring) (st : State) :
  trim s <> [] ->
  occurrences (trim s) (formSkills st) <= 1 ->
  occurrences (trim s)
    (formSkills (enterSkill remote s (enterSkill remote s st))) = 1.
Proof.
  intros Hne Hle; rewrite enterSkill_twice, enterSkill_skills.
  apply truthy_true in Hne; rewrite Hne; simpl.
  destruct (includes (formSkills st) (trim s)) eqn:Hi; simpl.
  - apply includes_In, occurrences_pos in Hi; lia.
  - apply includes_false, occurrences_zero in Hi.
    rewrite occurrences_app, occurrences_self, Hi; reflexivity.
Qed.

End Skills.

(** ** Social link editing *)

Lemma filterIndexFrom_all (A : Type) (p : nat -> bool) (l : list A) :
  forall from, (forall i, from <= i -> p i = true) ->
  filterIndexFrom from p l = l.
Proof.
  induction l as [|x r IH]; intros from Hp; simpl; [reflexivity | ].
  rewrite (Hp from (le_n from)), IH; [reflexivity | ].
  intros i Hi; apply Hp; lia.
Qed.

Lemma filterIndexFrom_skip (A : Type) (l : list A) :
  forall from n,
  filterIndexFrom from (fun i => negb (Z.of_nat i =? Z.of_nat (from + n))%Z) l
  = firstn n l ++ skipn (S n) l.
Proof.
  induction l as [|x r IH]; intros from n; simpl.
  - destruct n; reflexivity.
  - destruct n as [|n].
    + rewrite Nat.add_0_r, Z.eqb_refl; simpl.
      apply filterIndexFrom_all.
      intros i Hi; apply negb_true_iff, Z.eqb_neq; lia.
    + replace (Z.of_nat from =? Z.of_nat (from + S n))%Z with false
        by (symmetry; apply Z.eqb_neq; lia).
      simpl; f_equal.
      replace (from + S n) with (S from + n) by lia.
      apply IH.
Qed.

Lemma filterIndex_negative (A : Type) (l : list A) (index : Z) :
  (index < 0)%Z ->
  filterIndex (fun i => negb (Z.of_nat i =? index)%Z) l = l.
Proof.
  intros H; apply filterIndexFrom_all.
  intros i _; apply negb_true_iff, Z.eqb_neq; lia.
Qed.

Section SocialLinks.

Variable remote : Mutation -> bool.

Lemma addSocialLink_fire (st : State) :
  fire remote addSocialLink st =
  if truthy (trim (SocialLink.platform (newSocial st)))
     && truthy (trim (SocialLink.url (newSocial st)))
  then
    (mkState (designerProfile st) (portfolio st) (designerForm st)
       (PortfolioForm.mk
          (PortfolioForm.title (portfolioForm st))
          (PortfolioForm.description (portfolioForm st))
          (PortfolioForm.specialization (portfolioForm st))
          (formSkills st)
          (formLinks st
             ++ [SocialLink.mk (trim (SocialLink.platform (newSocial st)))
                   (trim (SocialLink.url (newSocial st)))]))
       (newSkill st) (SocialLink.mk [] []) (editContact st)
       (editPortfolio st), [])
  else (st, []).
Proof.
  unfold fire, addSocialLink, formSkills, formLinks.
  destruct (truthy (trim (SocialLink.platform (newSocial st)))
            && truthy (trim (SocialLink.url (newSocial st)))); reflexivity.
Qed.

(** C5.  With a pending pair whose platform or url is blank once trimmed,
    [addSocialLink] changes nothing: the whole state, the social links
    among it, is as before and nothing is observed.  With both parts
    non-empty once trimmed, the pair of the trimmed parts becomes the last
    social link and the other fields of the form keep their values. *)
Theorem addSocialLink_spec (st : State) :
  let p := trim (SocialLink.platform (newSocial st)) in
  let u := trim (SocialLink.url (newSocial st)) in
  (p = [] \/ u = [] -> fire remote addSocialLink st = (st, []))
  /\ (p <> [] /\ u <> [] ->
      formLinks (after remote addSocialLink st)
      = formLinks st ++ [SocialLink.mk p u]
      /\ formSkills (after remote addSocialLink st) = formSkills st
      /\ PortfolioForm.title (portfolioForm (after remote addSocialLink st))
         = PortfolioForm.title (portfolioForm st)
      /\ PortfolioForm.description
           (portfolioForm (after remote addSocialLink st))
         = PortfolioForm.description (portfolioForm st)
      /\ PortfolioForm.specialization
           (portfolioForm (after remote addSocialLink st))
         = PortfolioForm.specialization (portfolioForm st)).
Proof.
  intros p u; unfold after; rewrite addSocialLink_fire; fold p u; split.
  - intros [E | E]; apply truthy_false in E; rewrite E;
      [ | rewrite andb_false_r]; reflexivity.
  - intros [Hp Hu]; apply truthy_true in Hp, Hu; rewrite Hp, Hu.
    repeat split.
Qed.

Lemma removeSocialLink_links (st : State) (i : nat) :
  formLinks (after remote (removeSocialLink (Z.of_nat i)) st)
  = firstn i (formLinks st) ++ skipn (S i) (formLinks st).
Proof.
  unfold after, fire, removeSocialLink, formLinks; simpl.
  unfold filterIndex.
  exact (filterIndexFrom_skip (PortfolioForm.social_links (portfolioForm st))
           0 i).
Qed.

(** C6.  [removeSocialLink i] keeps the links before position [i] and the
    links after it, in their order, and drops the one at position [i] of
    the list the handler was created with; the other fields of the form
    keep their values. *)
Theorem removeSocialLink_spec (st : State) (i : nat) :
  formLinks (after remote (removeSocialLink (Z.of_nat i)) st)
  = firstn i (formLinks st) ++ skipn (S i) (formLinks st)
  /\ formSkills (after remote (removeSocialLink (Z.of_nat i)) st)
     = formSkills st
  /\ PortfolioForm.title
       (portfolioForm (after remote (removeSocialLink (Z.of_nat i)) st))
     = PortfolioForm.title (portfolioForm st)
  /\ PortfolioForm.description
       (portfolioForm (after remote (removeSocialLink (Z.of_nat i)) st))
     = PortfolioForm.description (portfolioForm st)
  /\ PortfolioForm.specialization
       (portfolioForm (after remote (removeSocialLink (Z.of_nat i)) st))
     = PortfolioForm.specialization (portfolioForm st).
Proof.
  split; [apply removeSocialLink_links | repeat split].
Qed.

(** At a position inside the list one link goes, and it is the one found
    there; the link at any other position is found again, one place
    earlier when it came after. *)
Lemma removeSocialLink_positions (st : State) (i : nat) :
  i < List.length (formLinks st) ->
  let links' := formLinks (after remote (removeSocialLink (Z.of_nat i)) st) in
  S (List.length links') = List.length (formLinks st)
  /\ (forall j, j < i -> nth_error links' j = nth_error (formLinks st) j)
  /\ (forall j, i <= j ->
        nth_error links' j = nth_error (formLinks st) (S j)).
Proof.
  intros Hi links'.
  pose proof (removeSocialLink_links st i) as E.
  fold links' in E; rewrite E; clear E links'.
  set (l := formLinks st) in *.
  assert (List.length (firstn i l) = i) as Hf
    by (rewrite length_firstn; lia).
  split; [ | split].
  - rewrite length_app, Hf, length_skipn; lia.
  - intros j Hj; rewrite nth_error_app1 by lia.
    rewrite nth_error_firstn.
    destruct (Nat.ltb_spec j i); [reflexivity | lia].
  - intros j Hj; rewrite nth_error_app2 by lia.
    rewrite Hf, nth_error_skipn; f_equal; lia.
Qed.

(** A position outside the list removes nothing. *)
Lemma removeSocialLink_out_of_range (st : State) (index : Z) :
  (index < 0 \/ Z.of_nat (List.length (formLinks st)) <= index)%Z ->
  formLinks (after remote (removeSocialLink index) st) = formLinks st.
Proof.
  intros [H | H].
  - apply (filterIndex_negative _ H).
  - replace index with (Z.of_nat (Z.to_nat index)) by lia.
    rewrite (removeSocialLink_links st (Z.to_nat index)).
    rewrite firstn_all2, skipn_all2 by lia.
    apply app_nil_r.
Qed.

End SocialLinks.

(** ** Save functions *)

Lemma idString_truthy (i : Id) : truthy (idString i) = true.
Proof. reflexivity. Qed.

Section Saving.

Variable remote : Mutation -> bool.

Lemma incomplete_check (f : PortfolioForm.t) :
  negb (truthy (trim (PortfolioForm.title f)))
  || negb (truthy (trim (PortfolioForm.description f)))
  || negb (truthy (trim (PortfolioForm.specialization f)))
  || (List.length (PortfolioForm.skills f) =? 0)%nat = true
  <-> incomplete f.
Proof.
  unfold incomplete.
  rewrite !orb_true_iff, !negb_true_iff, !truthy_false, Nat.eqb_eq,
    length_zero_iff_nil.
  tauto.
Qed.

Lemma savePortfolio_fire (st : State) (p : PortfolioRecord.t) :
  currentPortfolio st = Some p ->
  fire remote savePortfolio st =
  if negb (truthy (trim (PortfolioForm.title (portfolioForm st))))
     || negb (truthy (trim (PortfolioForm.description (portfolioForm st))))
     || negb (truthy (trim (PortfolioForm.specialization (portfolioForm st))))
     || (List.length (PortfolioForm.skills (portfolioForm st)) =? 0)%nat
  then (st, [Alerted completeFieldsMsg])
  else if remote (updatePortfolio (portfolioArgs p (portfolioForm st)))
  then (portfolioEditClosed st,
        [Resolved (updatePortfolio (portfolioArgs p (portfolioForm st)));
         Alerted portfolioSavedMsg])
  else (st, [Rejected (updatePortfolio (portfolioArgs p (portfolioForm st)))]).
Proof.
  intros Hp; unfold fire, savePortfolio; rewrite Hp, idString_truthy.
  cbv beta iota delta [negb].
  match goal with |- context [if ?c then (alert _ ;; _)%handler else _] =>
    destruct c end; [reflexivity | ].
  fold (portfolioArgs p (portfolioForm st)).
  cbn [run].
  destruct (remote (updatePortfolio (portfolioArgs p (portfolioForm st))));
    reflexivity.
Qed.

Lemma saveContactInfo_fire (st : State) (d : DesignerRecord.t) :
  designerProfile st = Loaded d ->
  fire remote saveContactInfo st =
  if remote (updateDesigner (designerArgs d (designerForm st)))
  then (contactEditClosed st,
        [Resolved (updateDesigner (designerArgs d (designerForm st)));
         Alerted contactUpdatedMsg])
  else (st, [Rejected (updateDesigner (designerArgs d (designerForm st)))]).
Proof.
  intros Hd; unfold fire, saveContactInfo; rewrite Hd, idString_truthy.
  fold (designerArgs d (designerForm st)).
  cbn [run negb].
  destruct (remote (updateDesigner (designerArgs d (designerForm st))));
    reflexivity.
Qed.

(** C1, as amended.  With a current portfolio record: an incomplete form
    (a required text empty once trimmed, or no skill) makes [savePortfolio]
    stop on the warning, with nothing sent to the store and the state, the
    edit flag in it, as it was.  A complete form is sent as the five fields
    of the form, whatever the store answers; once the store has taken them
    the section leaves edit mode and the confirmation is shown. *)
Theorem savePortfolio_spec (st : State) (p : PortfolioRecord.t) :
  currentPortfolio st = Some p ->
  (incomplete (portfolioForm st) ->
   fire remote savePortfolio st = (st, [Alerted completeFieldsMsg])
   /\ submitted (snd (fire remote savePortfolio st)) = []
   /\ editPortfolio (after remote savePortfolio st) = editPortfolio st)
  /\ (~ incomplete (portfolioForm st) ->
      submitted (snd (fire remote savePortfolio st))
      = [updatePortfolio (portfolioArgs p (portfolioForm st))]
      /\ (remote (updatePortfolio (portfolioArgs p (portfolioForm st))) = true
          -> fire remote savePortfolio st
             = (portfolioEditClosed st,
                [Resolved
                   (updatePortfolio (portfolioArgs p (portfolioForm st)));
                 Alerted portfolioSavedMsg]))).
Proof.
  intros Hp; unfold after; rewrite (savePortfolio_fire st Hp).
  split; intros Hi.
  - apply incomplete_check in Hi; rewrite Hi; repeat split.
  - rewrite <- incomplete_check in Hi; apply not_true_is_false in Hi.
    rewrite Hi.
    split; [ | intros ->; reflexivity].
    destruct (remote (updatePortfolio (portfolioArgs p (portfolioForm st))));
      reflexivity.
Qed.

(** C8, as amended.  With a designer record loaded, [saveContactInfo] sends
    the two fields of the contact form as they are, whatever they hold and
    whatever the store answers; once the store has taken them the section
    leaves edit mode and the confirmation is shown. *)
Theorem saveContactInfo_spec (st : State) (d : DesignerRecord.t) :
  designerProfile st = Loaded d ->
  submitted (snd (fire remote saveContactInfo st))
  = [updateDesigner (designerArgs d (designerForm st))]
  /\ (remote (updateDesigner (designerArgs d (designerForm st))) = true ->
      fire remote saveContactInfo st
      = (contactEditClosed st,
         [Resolved (updateDesigner (designerArgs d (designerForm st)));
          Alerted contactUpdatedMsg])).
Proof.
  intros Hd; rewrite (saveContactInfo_fire st Hd).
  split; [ | intros ->; reflexivity].
  destruct (remote (updateDesigner (designerArgs d (designerForm st))));
    reflexivity.
Qed.

(** When the store refuses the mutation, neither save leaves edit mode or
    confirms: the state is as it was. *)
Lemma save_rejected (st : State) :
  (forall d, designerProfile st = Loaded d ->
     remote (updateDesigner (designerArgs d (designerForm st))) = false ->
     fire remote saveContactInfo st
     = (st, [Rejected (updateDesigner (designerArgs d (designerForm st)))]))
  /\ (forall p, currentPortfolio st = Some p ->
        ~ incomplete (portfolioForm st) ->
        remote (updatePortfolio (portfolioArgs p (portfolioForm st))) = false ->
        fire remote savePortfolio st
        = (st,
           [Rejected (updatePortfolio (portfolioArgs p (portfolioForm st)))])).
Proof.
  split.
  - intros d Hd Hr; rewrite (saveContactInfo_fire st Hd), Hr; reflexivity.
  - intros p Hp Hi Hr; rewrite (savePortfolio_fire st Hp), Hr.
    rewrite <- incomplete_check in Hi; apply not_true_is_false in Hi.
    rewrite Hi; reflexivity.
Qed.

(** C10.  Without the backing record (no designer record for
    [saveContactInfo], no current portfolio for [savePortfolio]) the save
    does nothing: nothing is sent, nothing is shown, and the state, with
    both edit flags and both forms, is as it was. *)
Theorem save_without_record (st : State) :
  (designerProfile st = Null \/ designerProfile st = Undefined ->
   fire remote saveContactInfo st = (st, []))
  /\ (currentPortfolio st = None ->
      fire remote savePortfolio st = (st, [])).
Proof.
  split.
  - intros [H | H]; unfold fire, saveContactInfo; rewrite H; reflexivity.
  - intros H; unfold fire, savePortfolio; rewrite H; reflexivity.
Qed.

End Saving.

(** ** Checks *)

Lemma truthyOpt_false (v : option jsstring) :
  truthyOpt v = false <-> absentOrEmpty v.
Proof.
  unfold absentOrEmpty; destruct v as [[|c s]|]; simpl; split;
    try reflexivity; try discriminate; auto.
  - intros [H | H]; discriminate H.
Qed.

Lemma absentOrNoElement_true (A : Type) (v : option (list A)) :
  absentOrNoElement v = true <-> absentOrEmpty v.
Proof.
  unfold absentOrEmpty; destruct v as [[|c s]|]; simpl; split;
    try reflexivity; try discriminate; auto.
  - intros [H | H]; discriminate H.
Qed.

Lemma populated_not_empty (A : Type) (v : option (list A)) :
  populated v -> ~ absentOrEmpty v.
Proof.
  intros [l [-> Hl]] [H | H]; [discriminate H | ].
  injection H as ->; apply Hl; reflexivity.
Qed.

(** C7.  [isPortfolioEmpty] holds exactly when there is no current
    portfolio or title, description and specialization are each absent or
    empty and skills and social links are each absent or without element;
    so it is false as soon as one of the five is populated. *)
Theorem isPortfolioEmpty_spec (st : State) :
  (isPortfolioEmpty st = true <-> specPortfolioEmpty st)
  /\ (forall p, currentPortfolio st = Some p ->
        populated (PortfolioRecord.title p)
        \/ populated (PortfolioRecord.description p)
        \/ populated (PortfolioRecord.specialization p)
        \/ populated (PortfolioRecord.skills p)
        \/ populated (PortfolioRecord.social_links p) ->
        isPortfolioEmpty st = false).
Proof.
  assert (isPortfolioEmpty st = true <-> specPortfolioEmpty st) as Hiff.
  { unfold isPortfolioEmpty, specPortfolioEmpty.
    destruct (currentPortfolio st) as [p|]; [ | tauto].
    rewrite !andb_true_iff, !negb_true_iff, !truthyOpt_false,
      !absentOrNoElement_true.
    split.
    - intros H; right; exists p; tauto.
    - intros [H | [q [E H]]]; [discriminate H | ].
      injection E as <-; tauto. }
  split; [exact Hiff | ].
  intros p Hp Hpop.
  apply not_true_is_false; rewrite Hiff.
  intros [H | [q [E [Ht [Hd [Hs [Hk Hl]]]]]]]; [congruence | ].
  rewrite Hp in E; injection E as <-.
  destruct Hpop as [H | [H | [H | [H | H]]]];
    apply populated_not_empty in H; contradiction.
Qed.

Lemma falsyOrNa_true (v : option jsstring) :
  falsyOrNa v = true <-> absentOrEmpty v \/ isSentinel v.
Proof.
  unfold falsyOrNa, absentOrEmpty, isSentinel.
  destruct v as [s|].
  - rewrite orb_true_iff, negb_true_iff, truthy_false, strictEq_eq.
    split.
    + intros [-> | H]; [left; right; reflexivity | right; exists s; auto].
    + intros [[H | H] | [s' [E H]]].
      * discriminate H.
      * injection H as ->; left; reflexivity.
      * injection E as <-; right; exact H.
  - split; [intros _; left; left; reflexivity | reflexivity].
Qed.

(** C2, as amended.  [isContactInfoEmpty] holds exactly when the designer
    record is absent, or the contact number or the address is absent or the
    empty string, or one of the two equals [na] once trimmed and
    lower-cased. *)
Theorem isContactInfoEmpty_spec (st : State) :
  isContactInfoEmpty st = true <-> contactInfoUnset st.
Proof.
  unfold isContactInfoEmpty, contactInfoUnset, designerAbsent.
  destruct (designerProfile st) as [ | | d].
  - split; [intros _; left; right; reflexivity | reflexivity].
  - split; [intros _; left; left; reflexivity | reflexivity].
  - rewrite orb_true_iff, !falsyOrNa_true; split.
    + intros H; right; exists d; tauto.
    + intros [[H | H] | [d' [E H]]]; try discriminate H.
      injection E as <-; tauto.
Qed.

(** ** The sentinel *)



(** The three spellings the specification names count as the sentinel,
    and so does the empty string count as unset; blanks alone do not. *)
Lemma falsyOrNa_examples :
  falsyOrNa (Some (lit "NA")) = true
  /\ falsyOrNa (Some (lit " na ")) = true
  /\ falsyOrNa (Some (lit "Na")) = true
  /\ falsyOrNa (Some (lit "")) = true
  /\ falsyOrNa None = true
  /\ falsyOrNa (Some (lit "  ")) = false
  /\ falsyOrNa (Some (lit "n a")) = false.
Proof. repeat split. Qed.

(** ** The project list *)

Import Projects.

Lemma orElse_spec (a : option jsstring) (d : jsstring) :
  (a = None -> orElse a d = d)
  /\ (forall s, a = Some s -> s <> [] -> orElse a d = s)
  /\ (a = Some [] -> orElse a d = d).
Proof.
  repeat split.
  - intros ->; reflexivity.
  - intros s -> Hs; destruct s; [congruence | reflexivity].
  - intros ->; reflexivity.
Qed.



(** A designer object without a name, or with the empty name, is shown as
    [Unassigned] too. *)
Lemma renderCard_nameless (project : Request.t) (d : Designer.t) :
  Request.designer project = Some d ->
  Designer.full_name d = None \/ Designer.full_name d = Some [] ->
  designerValue (renderCard project) = lit "Unassigned".
Proof.
  unfold renderCard, designerFullName; simpl.
  intros -> [-> | ->]; reflexivity.
Qed.

(** ** The properties at the sample states *)

(** Entering [" ui "] twice on a fresh form lists [ui] once. *)
Lemma enterSkill_twice_once_fresh :
  occurrences (lit "ui")
    (formSkills
       (enterSkill accepting (lit " ui ")
          (enterSkill accepting (lit " ui ") initialState))) = 1.
Proof.
  apply (enterSkill_twice_once accepting (lit " ui ") initialState).
  - vm_compute; discriminate.
  - vm_compute; lia.
Defined.

(** Entering a blank twice lists no empty skill, and entering a skill the
    stored portfolio lists twice leaves it listed twice: "exactly one
    occurrence" fails for a blank input and for a form seeded with a
    repeated skill. *)
Lemma enterSkill_twice_not_once :
  occurrences (trim (lit "  "))
    (formSkills
       (enterSkill accepting (lit "  ")
          (enterSkill accepting (lit "  ") initialState))) = 0
  /\ occurrences (trim (lit "ui"))
       (formSkills
          (enterSkill accepting (lit "ui")
             (enterSkill accepting (lit "ui") stSeededTwice))) = 2.
Proof. split; vm_compute; reflexivity. Qed.

(** On [stComplete] the pending skill [" ux "] is appended as [ux], and
    pressing the button again, the input now cleared, does nothing. *)
Lemma addSkill_spec_sample :
  formSkills (after accepting addSkill stComplete) = [lit "x"; lit "ux"]
  /\ fire accepting addSkill (after accepting addSkill stComplete)
     = (after accepting addSkill stComplete, []).
Proof.
  split.
  - apply (proj2 (addSkill_spec accepting stComplete)).
    split; [vm_compute; discriminate | ].
    vm_compute; intros [H | H]; [discriminate H | exact H].
  - apply (proj1 (addSkill_spec accepting
                    (after accepting addSkill stComplete))).
    left; reflexivity.
Defined.

(** On [stComplete] the pending link is appended trimmed; on [stNoSkill],
    whose pending url is blank, nothing changes. *)
Lemma addSocialLink_spec_sample :
  formLinks (after accepting addSocialLink stComplete)
  = [behance; SocialLink.mk (lit "Dribbble") (lit "https://d.co/a")]
  /\ fire accepting addSocialLink stNoSkill = (stNoSkill, []).
Proof.
  split.
  - apply (proj2 (addSocialLink_spec accepting stComplete)).
    split; vm_compute; discriminate.
  - apply (proj1 (addSocialLink_spec accepting stNoSkill)).
    right; reflexivity.
Defined.

(** The example of the specification: with title [T], description [D],
    specialization [S] and the skill [x] the save goes through and leaves
    edit mode; without a skill it stops on the warning and stays in edit
    mode. *)
Lemma savePortfolio_spec_sample :
  (fire accepting savePortfolio stComplete
   = (portfolioEditClosed stComplete,
      [Resolved
         (updatePortfolio (portfolioArgs portfolioBlank
                             (portfolioForm stComplete)));
       Alerted portfolioSavedMsg])
   /\ editPortfolio (after accepting savePortfolio stComplete) = false)
  /\ (fire accepting savePortfolio stNoSkill
      = (stNoSkill, [Alerted completeFieldsMsg])
      /\ editPortfolio (after accepting savePortfolio stNoSkill) = true).
Proof.
  split.
  - assert (~ incomplete (portfolioForm stComplete)) as Hc.
    { intros [H | [H | [H | H]]]; vm_compute in H; discriminate H. }
    destruct (savePortfolio_spec accepting stComplete eq_refl) as [_ Hok].
    destruct (Hok Hc) as [_ Hfire].
    unfold after; rewrite (Hfire eq_refl); split; reflexivity.
  - assert (incomplete (portfolioForm stNoSkill)) as Hi.
    { right; right; right; reflexivity. }
    destruct (savePortfolio_spec accepting stNoSkill eq_refl) as [Hstop _].
    destruct (Hstop Hi) as [Hfire [_ Hedit]].
    split; [exact Hfire | exact Hedit].
Defined.

(** With a store that refuses the mutation the complete form of
    [stComplete] is sent but not persisted: the portfolio section stays in
    edit mode and no confirmation is shown. *)
Lemma savePortfolio_not_when_refused :
  currentPortfolio stComplete = Some portfolioBlank
  /\ trim (PortfolioForm.title (portfolioForm stComplete)) <> []
  /\ trim (PortfolioForm.description (portfolioForm stComplete)) <> []
  /\ trim (PortfolioForm.specialization (portfolioForm stComplete)) <> []
  /\ PortfolioForm.skills (portfolioForm stComplete) <> []
  /\ snd (fire refusing savePortfolio stComplete)
     = [Rejected
          (updatePortfolio
             (portfolioArgs portfolioBlank (portfolioForm stComplete)))]
  /\ editPortfolio stComplete = true
  /\ editPortfolio (after refusing savePortfolio stComplete) = true.
Proof.
  split; [reflexivity | ].
  repeat (split; [vm_compute; discriminate | ]).
  repeat split.
Qed.

(** With the record of [designerSet] loaded the contact form is sent and
    the section leaves edit mode. *)
Lemma saveContactInfo_spec_sample :
  fire accepting saveContactInfo stComplete
  = (contactEditClosed stComplete,
     [Resolved
        (updateDesigner (designerArgs designerSet (designerForm stComplete)));
      Alerted contactUpdatedMsg]).
Proof.
  apply (proj2 (saveContactInfo_spec accepting stComplete eq_refl)).
  reflexivity.
Defined.

(** Without a designer record [saveContactInfo] sends nothing, confirms
    nothing and leaves the contact section in edit mode, although the form
    is filled in and the store would take the mutation. *)
Lemma saveContactInfo_not_unconditional :
  editContact stNoDesigner = true
  /\ submitted (snd (fire accepting saveContactInfo stNoDesigner)) = []
  /\ snd (fire accepting saveContactInfo stNoDesigner) = []
  /\ editContact (after accepting saveContactInfo stNoDesigner) = true.
Proof. repeat split. Qed.

(** Both saves are silent on [stNoDesigner], which has neither record. *)
Lemma save_without_record_sample :
  fire accepting saveContactInfo stNoDesigner = (stNoDesigner, [])
  /\ fire accepting savePortfolio stNoDesigner = (stNoDesigner, []).
Proof.
  split.
  - apply (proj1 (save_without_record accepting stNoDesigner)).
    left; reflexivity.
  - apply (proj2 (save_without_record accepting stNoDesigner)).
    reflexivity.
Defined.

(** A contact number stored as the empty string makes the contact info
    empty, although no field is absent and none is the sentinel. *)
Lemma isContactInfoEmpty_empty_string :
  isContactInfoEmpty stNoPhone = true /\ ~ specContactInfoEmpty stNoPhone.
Proof.
  split; [reflexivity | ].
  intros [[H | H] | [d [E H]]]; try discriminate H.
  injection E as <-.
  destruct H as [H | [H | [[s [E H]] | [s [E H]]]]]; try discriminate H;
    injection E as <-; vm_compute in H; discriminate H.
Qed.

(** The blank portfolio row is empty; a single social link is enough to
    make a portfolio non-empty. *)
Lemma isPortfolioEmpty_spec_sample :
  isPortfolioEmpty stNoPhone = true
  /\ isPortfolioEmpty stSeededTwice = false.
Proof.
  split.
  - apply (proj1 (isPortfolioEmpty_spec stNoPhone)).
    right; exists portfolioBlank; repeat split; left; reflexivity.
  - apply (proj2 (isPortfolioEmpty_spec stSeededTwice) portfolioTwice);
      [reflexivity | ].
    left; exists (lit "Logos"); split; [reflexivity | discriminate].
Defined.

(** With the pending link added to [stComplete] there are two links;
    removing position 0 keeps the second alone. *)
Lemma removeSocialLink_spec_sample :
  formLinks
    (after accepting (removeSocialLink 0)
       (after accepting addSocialLink stComplete))
  = [SocialLink.mk (lit "Dribbble") (lit "https://d.co/a")].
Proof.
  exact (proj1 (removeSocialLink_spec accepting
                  (after accepting addSocialLink stComplete) 0)).
Defined.


(** * Further properties of the portfolio page *)

Import PortfolioUi.

Unset Implicit Arguments.

(** ** What [trim] keeps and what it strips *)

Lemma trimStart_split (s : jsstring) :
  exists ws, s = ws ++ trimStart s /\ allWhiteSpace ws.
Proof.
  induction s as [|c r [ws [E Hws]]]; simpl.
  - exists []; split; [reflexivity | constructor].
  - destruct (isWhiteSpace c) eqn:Hc.
    + exists (c :: ws); split; [simpl; f_equal; exact E | ].
      constructor; assumption.
    + exists []; split; [reflexivity | constructor].
Qed.

Lemma trimStart_head (s : jsstring) (c : codeUnit) (r : jsstring) :
  trimStart s = c :: r -> isWhiteSpace c = false.
Proof.
  induction s as [|c0 r0 IH]; simpl; [discriminate | ].
  destruct (isWhiteSpace c0) eqn:Hc; [exact IH | ].
  intros E; injection E as <- _; exact Hc.
Qed.

Lemma trimStart_fixed (c : codeUnit) (r : jsstring) :
  isWhiteSpace c = false -> trimStart (c :: r) = c :: r.
Proof. intros H; simpl; rewrite H; reflexivity. Qed.

Lemma trimStart_blank (s : jsstring) :
  allWhiteSpace s -> trimStart s = [].
Proof.
  induction 1 as [|c r Hc _ IH]; simpl; [reflexivity | ].
  rewrite Hc; exact IH.
Qed.

Lemma trimEnd_split (s : jsstring) :
  exists ws, s = trimEnd s ++ ws /\ allWhiteSpace ws.
Proof.
  destruct (trimStart_split (rev s)) as [ws [E Hws]].
  exists (rev ws); split.
  - unfold trimEnd; rewrite <- rev_app_distr, <- E, rev_involutive.
    reflexivity.
  - apply Forall_rev; exact Hws.
Qed.

Lemma trimEnd_last (s r : jsstring) (c : codeUnit) :
  trimEnd s = r ++ [c] -> isWhiteSpace c = false.
Proof.
  unfold trimEnd; intros E.
  apply (f_equal (@rev codeUnit)) in E.
  rewrite rev_involutive, rev_app_distr in E; simpl in E.
  exact (trimStart_head _ _ _ E).
Qed.

Lemma trimEnd_fixed (r : jsstring) (c : codeUnit) :
  isWhiteSpace c = false -> trimEnd (r ++ [c]) = r ++ [c].
Proof.
  intros H; unfold trimEnd; rewrite rev_app_distr; simpl.
  rewrite H; simpl; rewrite rev_involutive; reflexivity.
Qed.

Lemma trimEnd_keeps_head (c : codeUnit) (r : jsstring) :
  isWhiteSpace c = false -> exists r', trimEnd (c :: r) = c :: r'.
Proof.
  intros Hc; destruct (trimEnd_split (c :: r)) as [ws [E Hws]].
  destruct (trimEnd (c :: r)) as [|x r'].
  - simpl in E; subst ws; inversion Hws; congruence.
  - injection E as <- _; exists r'; reflexivity.
Qed.

Lemma last_exists (A : Type) (x : A) (l : list A) :
  exists r y, x :: l = r ++ [y].
Proof.
  destruct (@exists_last A (x :: l)) as [r [y E]]; [discriminate | ].
  exists r, y; exact E.
Qed.

(** The trimmed string is empty or has clean edges. *)
Lemma trim_shape (s : jsstring) : trim s = [] \/ edgesClean (trim s).
Proof.
  unfold trim; destruct (trimStart s) as [|c r] eqn:E; [left; reflexivity | ].
  right; apply trimStart_head in E.
  destruct (trimEnd_keeps_head c r E) as [r' E'].
  split.
  - exists c, r'; split; assumption.
  - destruct (last_exists _ c r') as [r0 [y Ey]].
    exists r0, y; split; [rewrite E'; exact Ey | ].
    apply (trimEnd_last (c :: r) r0 y); rewrite E'; exact Ey.
Qed.

(** A string with clean edges is its own trimmed form. *)
Lemma edgesClean_trim (s : jsstring) : edgesClean s -> trim s = s.
Proof.
  intros [[c [r [E Hc]]] [r' [c' [E' Hc']]]].
  unfold trim; rewrite E, (trimStart_fixed c r Hc), <- E, E'.
  apply trimEnd_fixed; exact Hc'.
Qed.

Lemma edgesClean_not_nil (s : jsstring) : edgesClean s -> s <> [].
Proof. intros [[c [r [E _]]] _]; rewrite E; discriminate. Qed.

Lemma trim_idempotent (s : jsstring) : trim (trim s) = trim s.
Proof.
  destruct (trim_shape s) as [E | H]; [rewrite E; reflexivity | ].
  apply edgesClean_trim; exact H.
Qed.

(** [trim] strips white space from both ends and nothing else. *)
Lemma trim_split (s : jsstring) :
  exists pre post,
    s = pre ++ trim s ++ post /\ allWhiteSpace pre /\ allWhiteSpace post.
Proof.
  destruct (trimStart_split s) as [pre [E Hpre]].
  destruct (trimEnd_split (trimStart s)) as [post [E' Hpost]].
  exists pre, post; repeat split; try assumption.
  unfold trim; rewrite <- E'; exact E.
Qed.

(** The strings [trim] empties are the blank ones. *)
Lemma trim_nil_iff (s : jsstring) : trim s = [] <-> allWhiteSpace s.
Proof.
  split.
  - intros E; destruct (trim_split s) as [pre [post [Es [Hpre Hpost]]]].
    rewrite E in Es; rewrite Es; apply Forall_app; split; assumption.
  - intros H; unfold trim; rewrite (trimStart_blank s H); reflexivity.
Qed.

(** ** Skills: what gets in, what gets out *)

Section SkillSet.

Variable remote : Mutation -> bool.

(** [addSkill] leaves the skills alone or appends the input stripped of the
    white space around it; what it appends is not empty, begins and ends
    with something else than white space, and was not listed before. *)
Theorem addSkill_outcome (st : State) :
  formSkills (after remote addSkill st) = formSkills st
  \/ exists t pre post,
       formSkills (after remote addSkill st) = formSkills st ++ [t]
       /\ newSkill st = pre ++ t ++ post
       /\ allWhiteSpace pre /\ allWhiteSpace post
       /\ edgesClean t
       /\ ~ In t (formSkills st).
Proof.
  unfold after; rewrite addSkill_fire.
  destruct (truthy (trim (newSkill st))) eqn:Ht; [ | left; reflexivity].
  destruct (includes (formSkills st) (trim (newSkill st))) eqn:Hi;
    [left; reflexivity | right].
  destruct (trim_split (newSkill st)) as [pre [post [E [Hpre Hpost]]]].
  exists (trim (newSkill st)), pre, post.
  repeat split; try assumption.
  - destruct (trim_shape (newSkill st)) as [H | [H _]]; [ | exact H].
    rewrite H in Ht; discriminate Ht.
  - destruct (trim_shape (newSkill st)) as [H | [_ H]]; [ | exact H].
    rewrite H in Ht; discriminate Ht.
  - apply includes_false; exact Hi.
Qed.

Lemma removeSkill_skills (skill : jsstring) (st : State) :
  formSkills (after remote (removeSkill skill) st)
  = filter (fun s => negb (strictEq s skill)) (formSkills st).
Proof. reflexivity. Qed.

Lemma filter_out_In (skill : jsstring) (l : list jsstring) :
  ~ In skill (filter (fun s => negb (strictEq s skill)) l).
Proof.
  intros H; apply filter_In in H; destruct H as [_ H].
  rewrite strictEq_refl in H; discriminate H.
Qed.

Lemma filter_out_other (skill t : jsstring) (l : list jsstring) :
  t <> skill ->
  occurrences t (filter (fun s => negb (strictEq s skill)) l)
  = occurrences t l.
Proof.
  intros Hne; unfold occurrences.
  induction l as [|x l IH]; simpl; [reflexivity | ].
  destruct (strictEq x skill) eqn:E; simpl.
  - apply strictEq_eq in E; subst x.
    destruct (list_eq_dec N.eq_dec skill t); [congruence | exact IH].
  - destruct (list_eq_dec N.eq_dec x t); rewrite IH; reflexivity.
Qed.

Lemma filter_out_length (skill : jsstring) (l : list jsstring) :
  List.length (filter (fun s => negb (strictEq s skill)) l)
  + occurrences skill l = List.length l.
Proof.
  unfold occurrences.
  induction l as [|x l IH]; simpl; [reflexivity | ].
  destruct (strictEq x skill) eqn:E; simpl.
  - apply strictEq_eq in E; subst x.
    destruct (list_eq_dec N.eq_dec skill skill); [lia | congruence].
  - destruct (list_eq_dec N.eq_dec x skill) as [-> | _];
      [rewrite strictEq_refl in E; discriminate E | lia].
Qed.

Lemma filter_out_absent (skill : jsstring) (l : list jsstring) :
  ~ In skill l -> filter (fun s => negb (strictEq s skill)) l = l.
Proof.
  induction l as [|x l IH]; simpl; intros H; [reflexivity | ].
  destruct (strictEq x skill) eqn:E.
  - apply strictEq_eq in E; exfalso; apply H; left; exact E.
  - simpl; f_equal; apply IH; intros Hin; apply H; right; exact Hin.
Qed.

(** [removeSkill] removes every occurrence of the skill, as many entries as
    there were occurrences, and keeps every other skill as often as it was
    listed; the other fields of the form keep their values. *)
Theorem removeSkill_spec (skill : jsstring) (st : State) :
  ~ In skill (formSkills (after remote (removeSkill skill) st))
  /\ (forall t, t <> skill ->
        occurrences t (formSkills (after remote (removeSkill skill) st))
        = occurrences t (formSkills st))
  /\ List.length (formSkills (after remote (removeSkill skill) st))
     + occurrences skill (formSkills st)
     = List.length (formSkills st)
  /\ formLinks (after remote (removeSkill skill) st) = formLinks st
  /\ PortfolioForm.title (portfolioForm (after remote (removeSkill skill) st))
     = PortfolioForm.title (portfolioForm st)
  /\ PortfolioForm.description
       (portfolioForm (after remote (removeSkill skill) st))
     = PortfolioForm.description (portfolioForm st)
  /\ PortfolioForm.specialization
       (portfolioForm (after remote (removeSkill skill) st))
     = PortfolioForm.specialization (portfolioForm st).
Proof.
  rewrite removeSkill_skills.
  split; [apply filter_out_In | ].
  split; [intros t Ht; apply filter_out_other; exact Ht | ].
  split; [apply filter_out_length | repeat split].
Qed.

(** Removing the skill that [addSkill] has just appended gives the skills
    back as they were; so does removing it when [addSkill] refused a blank
    input. *)
Theorem addSkill_then_removeSkill (st : State) :
  ~ In (trim (newSkill st)) (formSkills st) ->
  formSkills
    (after remote (removeSkill (trim (newSkill st)))
       (after remote addSkill st))
  = formSkills st.
Proof.
  intros Hn; rewrite removeSkill_skills.
  unfold after; rewrite addSkill_fire.
  apply includes_false in Hn; rewrite Hn, andb_true_r.
  destruct (truthy (trim (newSkill st))); simpl.
  - unfold formSkills at 1; simpl.
    rewrite filter_app; simpl; rewrite strictEq_refl; simpl.
    rewrite app_nil_r; apply filter_out_absent.
    apply includes_false; exact Hn.
  - apply filter_out_absent; apply includes_false; exact Hn.
Qed.

(** Removing a listed skill and entering it again moves it to the end. *)
Theorem removeSkill_then_enterSkill (skill : jsstring) (st : State) :
  edgesClean skill ->
  formSkills
    (enterSkill remote skill (after remote (removeSkill skill) st))
  = filter (fun s => negb (strictEq s skill)) (formSkills st) ++ [skill].
Proof.
  intros Hc; rewrite enterSkill_skills, removeSkill_skills.
  rewrite (edgesClean_trim skill Hc).
  assert (truthy skill = true) as ->
    by (apply truthy_true, edgesClean_not_nil; exact Hc).
  assert (includes (filter (fun s => negb (strictEq s skill)) (formSkills st))
            skill = false) as ->
    by (apply includes_false, filter_out_In).
  reflexivity.
Qed.

End SkillSet.

(** ** Social links: repetition, undoing, chips *)

Section LinkList.

Variable remote : Mutation -> bool.

Lemma enterSocialLink_links (platform url : jsstring) (st : State) :
  formLinks (enterSocialLink remote platform url st) =
  if truthy (trim platform) && truthy (trim url)
  then formLinks st ++ [SocialLink.mk (trim platform) (trim url)]
  else formLinks st.
Proof.
  unfold enterSocialLink, session; simpl.
  set (st2 := dispatch remote (TypeUrl url)
                (dispatch remote (TypePlatform platform) st)).
  assert (SocialLink.platform (newSocial st2) = platform) as Ep
    by reflexivity.
  assert (SocialLink.url (newSocial st2) = url) as Eu by reflexivity.
  assert (formLinks st2 = formLinks st) as El by reflexivity.
  unfold dispatch at 1, after; simpl handlerOf.
  rewrite addSocialLink_fire, Ep, Eu, El.
  destruct (truthy (trim platform) && truthy (trim url));
    [reflexivity | exact El].
Qed.

(** Unlike skills, social links are not compared with the ones already
    listed: entering the same link twice lists it twice. *)
Theorem enterSocialLink_twice (platform url : jsstring) (st : State) :
  trim platform <> [] -> trim url <> [] ->
  formLinks
    (enterSocialLink remote platform url
       (enterSocialLink remote platform url st))
  = formLinks st
    ++ [SocialLink.mk (trim platform) (trim url);
        SocialLink.mk (trim platform) (trim url)].
Proof.
  intros Hp Hu; apply truthy_true in Hp, Hu.
  rewrite !enterSocialLink_links, Hp, Hu; simpl.
  rewrite <- app_assoc; reflexivity.
Qed.

(** Removing at the position just past the old end undoes [addSocialLink]:
    it takes the appended link away, and takes nothing away when the add
    was refused. *)
Theorem addSocialLink_then_remove (st : State) :
  formLinks
    (after remote
       (removeSocialLink (Z.of_nat (List.length (formLinks st))))
       (after remote addSocialLink st))
  = formLinks st.
Proof.
  rewrite removeSocialLink_links.
  assert (formLinks (after remote addSocialLink st) = formLinks st
          \/ exists x, formLinks (after remote addSocialLink st)
                       = formLinks st ++ [x]) as [E | [x E]].
  { unfold after; rewrite addSocialLink_fire.
    destruct (truthy (trim (SocialLink.platform (newSocial st)))
              && truthy (trim (SocialLink.url (newSocial st))));
      [right; eexists; reflexivity | left; reflexivity]. }
  - rewrite E, firstn_all, skipn_all2 by lia.
    apply app_nil_r.
  - rewrite E.
    rewrite skipn_all2 by (rewrite length_app; simpl; lia).
    rewrite firstn_app, Nat.sub_diag, firstn_all, firstn_O.
    rewrite !app_nil_r; reflexivity.
Qed.

Lemma mapIndexFrom_nth (A B : Type) (f : A -> nat -> B) (l : list A) :
  forall from k,
  nth_error (mapIndexFrom from f l) k
  = option_map (fun x => f x (from + k)) (nth_error l k).
Proof.
  induction l as [|x l IH]; intros from k; simpl.
  - destruct k; reflexivity.
  - destruct k as [|k]; simpl.
    + rewrite Nat.add_0_r; reflexivity.
    + rewrite IH; replace (S from + k) with (from + S k) by lia.
      reflexivity.
Qed.

(** In the editor every link chip carries a remove button that takes away
    the link shown on that chip and no other: the list gets one shorter,
    the links before and after the chip stay in their order. *)
Theorem linkChip_removes_its_link (st : State) (k : nat)
    (link : SocialLink.t) (ev : UiEvent) :
  nth_error (linkChipsOf st) k = Some (link, ev) ->
  nth_error (formLinks st) k = Some link
  /\ formLinks (dispatch remote ev st)
     = firstn k (formLinks st) ++ skipn (S k) (formLinks st)
  /\ S (List.length (formLinks (dispatch remote ev st)))
     = List.length (formLinks st).
Proof.
  unfold linkChipsOf; rewrite mapIndexFrom_nth; simpl.
  destruct (nth_error (formLinks st) k) as [x|] eqn:E; simpl;
    [ | discriminate].
  intros H; injection H as -> <-.
  assert (k < List.length (formLinks st)) as Hk
    by (apply nth_error_Some; congruence).
  split; [reflexivity | ].
  unfold dispatch; simpl handlerOf; rewrite removeSocialLink_links.
  split; [reflexivity | ].
  rewrite length_app, length_firstn, length_skipn; lia.
Qed.

(** A skill chip's remove button takes away every chip with that skill,
    all of them when the list repeats it, and no chip with another skill. *)
Theorem skillChip_removes_its_skill (st : State) (skill : jsstring)
    (ev : UiEvent) :
  In (skill, ev) (skillChipsOf st) ->
  In skill (formSkills st)
  /\ ~ In skill (formSkills (dispatch remote ev st))
  /\ (forall t, t <> skill ->
        occurrences t (formSkills (dispatch remote ev st))
        = occurrences t (formSkills st))
  /\ (NoDup (formSkills st) ->
      S (List.length (formSkills (dispatch remote ev st)))
      = List.length (formSkills st)).
Proof.
  unfold skillChipsOf; intros H; apply in_map_iff in H.
  destruct H as [s [E Hin]]; injection E as -> <-.
  unfold dispatch; simpl handlerOf; rewrite removeSkill_skills.
  split; [exact Hin | ].
  split; [apply filter_out_In | ].
  split; [intros t Ht; apply filter_out_other; exact Ht | ].
  intros Hnd.
  pose proof (filter_out_length skill (formSkills st)) as Hlen.
  assert (occurrences skill (formSkills st) = 1) as Hone.
  { unfold occurrences.
    apply (proj1 (NoDup_count_occ' (list_eq_dec N.eq_dec) (formSkills st)));
      assumption. }
  lia.
Qed.

End LinkList.

(** ** Saving: what reaches the store, what stays *)

Section SaveBehaviour.

Variable remote : Mutation -> bool.

Lemma savePortfolio_cases (st : State) :
  fire remote savePortfolio st = (st, [])
  \/ fire remote savePortfolio st = (st, [Alerted completeFieldsMsg])
  \/ exists p,
       currentPortfolio st = Some p
       /\ ~ incomplete (portfolioForm st)
       /\ ((remote (updatePortfolio (portfolioArgs p (portfolioForm st)))
            = true
            /\ fire remote savePortfolio st
               = (portfolioEditClosed st,
                  [Resolved
                     (updatePortfolio (portfolioArgs p (portfolioForm st)));
                   Alerted portfolioSavedMsg]))
           \/ (remote (updatePortfolio (portfolioArgs p (portfolioForm st)))
               = false
               /\ fire remote savePortfolio st
                  = (st,
                     [Rejected
                        (updatePortfolio
                           (portfolioArgs p (portfolioForm st)))]))).
Proof.
  destruct (currentPortfolio st) as [p|] eqn:Hp.
  - rewrite (savePortfolio_fire remote st Hp).
    match goal with |- context [if ?c then (st, [Alerted _]) else _] =>
      destruct c eqn:Hc end.
    + right; left; reflexivity.
    + right; right; exists p; split; [reflexivity | ].
      split.
      * rewrite <- incomplete_check, Hc; discriminate.
      * destruct (remote (updatePortfolio
                            (portfolioArgs p (portfolioForm st))));
          [left | right]; split; reflexivity.
  - left; unfold fire, savePortfolio; rewrite Hp; reflexivity.
Qed.

Lemma saveContactInfo_cases (st : State) :
  fire remote saveContactInfo st = (st, [])
  \/ exists d,
       designerProfile st = Loaded d
       /\ ((remote (updateDesigner (designerArgs d (designerForm st))) = true
            /\ fire remote saveContactInfo st
               = (contactEditClosed st,
                  [Resolved
                     (updateDesigner (designerArgs d (designerForm st)));
                   Alerted contactUpdatedMsg]))
           \/ (remote (updateDesigner (designerArgs d (designerForm st)))
               = false
               /\ fire remote saveContactInfo st
                  = (st,
                     [Rejected
                        (updateDesigner
                           (designerArgs d (designerForm st)))]))).
Proof.
  destruct (designerProfile st) as [ | | d] eqn:Hd.
  - left; unfold fire, saveContactInfo; rewrite Hd; reflexivity.
  - left; unfold fire, saveContactInfo; rewrite Hd; reflexivity.
  - right; exists d; split; [reflexivity | ].
    rewrite (saveContactInfo_fire remote st Hd).
    destruct (remote (updateDesigner (designerArgs d (designerForm st))));
      [left | right]; split; reflexivity.
Qed.

(** Whatever the state and the store, a mutation [savePortfolio] hands to
    the store is an [updatePortfolio] for the current record whose title,
    description and specialization are not blank and which has a skill. *)
Theorem savePortfolio_never_incomplete (st : State) (m : Mutation) :
  In m (submitted (snd (fire remote savePortfolio st))) ->
  exists p args,
    currentPortfolio st = Some p
    /\ m = updatePortfolio args
    /\ UpdatePortfolio.portfolioId args = PortfolioRecord._id p
    /\ ~ allWhiteSpace (UpdatePortfolio.title args)
    /\ ~ allWhiteSpace (UpdatePortfolio.description args)
    /\ ~ allWhiteSpace (UpdatePortfolio.specialization args)
    /\ UpdatePortfolio.skills args <> [].
Proof.
  intros Hin.
  destruct (savePortfolio_cases st)
    as [E | [E | [p [Hp [Hc [[_ E] | [_ E]]]]]]];
    rewrite E in Hin; simpl in Hin; try contradiction;
    destruct Hin as [<- | []];
    exists p, (portfolioArgs p (portfolioForm st));
    unfold incomplete in Hc; rewrite !trim_nil_iff in Hc;
    simpl; repeat split; try assumption; tauto.
Qed.

(** Neither save writes to a form or to a pending input, and neither
    touches the other section; a save can close its own editor but never
    opens one. *)
Theorem save_keeps_forms (st : State) :
  (let st' := after remote savePortfolio st in
   portfolioForm st' = portfolioForm st
   /\ designerForm st' = designerForm st
   /\ newSkill st' = newSkill st
   /\ newSocial st' = newSocial st
   /\ editContact st' = editContact st
   /\ (editPortfolio st' = true -> editPortfolio st = true))
  /\ (let st' := after remote saveContactInfo st in
      portfolioForm st' = portfolioForm st
      /\ designerForm st' = designerForm st
      /\ newSkill st' = newSkill st
      /\ newSocial st' = newSocial st
      /\ editPortfolio st' = editPortfolio st
      /\ (editContact st' = true -> editContact st = true)).
Proof.
  split; unfold after.
  - destruct (savePortfolio_cases st)
      as [E | [E | [p [_ [_ [[_ E] | [_ E]]]]]]];
      rewrite E; simpl; repeat split; auto; discriminate.
  - destruct (saveContactInfo_cases st) as [E | [d [_ [[_ E] | [_ E]]]]];
      rewrite E; simpl; repeat split; auto; discriminate.
Qed.

(** Pressing [Save] in an open editor closes it exactly when the record is
    there, the store takes the mutation and, for the portfolio, the form
    is complete. *)
Theorem save_closes_iff (st : State) :
  (editPortfolio st = true ->
   (editPortfolio (dispatch remote PressSavePortfolio st) = false
    <-> exists p,
          currentPortfolio st = Some p
          /\ ~ incomplete (portfolioForm st)
          /\ remote (updatePortfolio (portfolioArgs p (portfolioForm st)))
             = true))
  /\ (editContact st = true ->
      (editContact (dispatch remote PressSaveContact st) = false
       <-> exists d,
             designerProfile st = Loaded d
             /\ remote (updateDesigner (designerArgs d (designerForm st)))
                = true)).
Proof.
  split; intros Hopen; unfold dispatch, after; simpl handlerOf.
  - destruct (savePortfolio_cases st)
      as [E | [E | [p [Hp [Hc [[Hr E] | [Hr E]]]]]]]; rewrite E; simpl.
    + split; [congruence | ].
      intros [p [Hp _]].
      rewrite (savePortfolio_fire remote st Hp) in E.
      repeat match type of E with
             | context [if ?c then _ else _] => destruct c
             end; discriminate E.
    + split; [congruence | ].
      intros [p [Hp [Hc Hr]]].
      rewrite (savePortfolio_fire remote st Hp), Hr in E.
      rewrite <- incomplete_check in Hc; apply not_true_is_false in Hc.
      rewrite Hc in E; discriminate E.
    + split; [intros _; exists p; auto | reflexivity].
    + split; [congruence | ].
      intros [q [Hq [_ Hr']]]; congruence.
  - destruct (saveContactInfo_cases st) as [E | [d [Hd [[Hr E] | [Hr E]]]]];
      rewrite E; simpl.
    + split; [congruence | ].
      intros [d [Hd Hr]].
      rewrite (saveContactInfo_fire remote st Hd), Hr in E; discriminate E.
    + split; [intros _; exists d; auto | reflexivity].
    + split; [congruence | ].
      intros [q [Hq Hr']]; congruence.
Qed.

(** Of everything the user can do on the page only the two save buttons
    reach the store or raise an alert: typing, adding and removing skills
    and links, opening and cancelling an editor are silent. *)
Theorem only_saves_are_observable (e : UiEvent) (st : State) :
  e <> PressSaveContact -> e <> PressSavePortfolio ->
  snd (fire remote (handlerOf e) st) = [].
Proof.
  intros Hc Hp; destruct e; try congruence; simpl handlerOf;
    try reflexivity.
  - rewrite addSkill_fire; destruct (_ && _); reflexivity.
  - rewrite addSocialLink_fire; destruct (_ && _); reflexivity.
Qed.

End SaveBehaviour.

(** ** An invariant of editing sessions *)

Section Sessions.

Variable remote : Mutation -> bool.

Lemma NoDup_snoc (x : jsstring) (l : list jsstring) :
  NoDup l -> ~ In x l -> NoDup (l ++ [x]).
Proof.
  induction 1 as [|a l Ha Hl IH]; intros Hx; simpl.
  - constructor; [intros [] | constructor].
  - constructor.
    + intros Hin; apply in_app_or in Hin; destruct Hin as [Hin | [<- | []]].
      * exact (Ha Hin).
      * apply Hx; left; reflexivity.
    + apply IH; intros Hin; apply Hx; right; exact Hin.
Qed.

Lemma Forall_filterIndexFrom (A : Type) (P : A -> Prop) (p : nat -> bool)
    (l : list A) :
  Forall P l -> forall from, Forall P (filterIndexFrom from p l).
Proof.
  induction 1 as [|x l Hx _ IH]; intros from; simpl; [constructor | ].
  destruct (p from); [constructor; [exact Hx | apply IH] | apply IH].
Qed.

Lemma Forall_filter_keep (A : Type) (P : A -> Prop) (f : A -> bool)
    (l : list A) :
  Forall P l -> Forall P (filter f l).
Proof.
  rewrite !Forall_forall; intros H x Hx.
  apply filter_In in Hx; apply H; tauto.
Qed.

Lemma trim_truthy_clean (s : jsstring) :
  truthy (trim s) = true -> edgesClean (trim s).
Proof.
  intros H; destruct (trim_shape s) as [E | Hc]; [ | exact Hc].
  rewrite E in H; discriminate H.
Qed.

Lemma addSkill_tidy (st : State) :
  formTidy st -> formTidy (after remote addSkill st).
Proof.
  intros [Hnd [Hs Hl]]; unfold after; rewrite addSkill_fire.
  destruct (truthy (trim (newSkill st))) eqn:Ht;
    [ | repeat split; assumption].
  destruct (includes (formSkills st) (trim (newSkill st))) eqn:Hi;
    [repeat split; assumption | ].
  simpl; unfold formTidy, formSkills at 1 2, formLinks at 1; simpl.
  apply includes_false in Hi.
  split; [apply NoDup_snoc; assumption | ].
  split; [ | exact Hl].
  apply Forall_app; split; [exact Hs | ].
  constructor; [apply trim_truthy_clean; exact Ht | constructor].
Qed.

Lemma addSocialLink_tidy (st : State) :
  formTidy st -> formTidy (after remote addSocialLink st).
Proof.
  intros [Hnd [Hs Hl]]; unfold after; rewrite addSocialLink_fire.
  destruct (truthy (trim (SocialLink.platform (newSocial st)))) eqn:Hp;
    [ | repeat split; assumption].
  destruct (truthy (trim (SocialLink.url (newSocial st)))) eqn:Hu;
    [ | repeat split; assumption].
  simpl; unfold formTidy, formSkills at 1 2, formLinks at 1; simpl.
  split; [exact Hnd | split; [exact Hs | ]].
  apply Forall_app; split; [exact Hl | ].
  constructor; [ | constructor].
  split; simpl; apply trim_truthy_clean; assumption.
Qed.

Lemma dispatch_tidy (e : UiEvent) (st : State) :
  formTidy st -> formTidy (dispatch remote e st).
Proof.
  intros H; destruct e; unfold dispatch; simpl handlerOf;
    try exact H.
  - apply addSkill_tidy; exact H.
  - destruct H as [Hnd [Hs Hl]]; split; [ | split].
    + rewrite removeSkill_skills; apply NoDup_filter; exact Hnd.
    + rewrite removeSkill_skills; apply Forall_filter_keep; exact Hs.
    + exact Hl.
  - apply addSocialLink_tidy; exact H.
  - destruct H as [Hnd [Hs Hl]]; split; [exact Hnd | split; [exact Hs | ]].
    apply (Forall_filterIndexFrom _ linkClean _ (formLinks st) Hl 0).
  - unfold after.
    destruct (saveContactInfo_cases remote st)
      as [E | [d [_ [[_ E] | [_ E]]]]]; rewrite E; exact H.
  - unfold after.
    destruct (savePortfolio_cases remote st)
      as [E | [E | [p [_ [_ [[_ E] | [_ E]]]]]]]; rewrite E; exact H.
Qed.

(** Between two deliveries of the queries the user's events keep a tidy
    form tidy. *)
Lemma session_keeps_tidy (es : list UiEvent) (st : State) :
  formTidy st -> formTidy (session remote es st).
Proof.
  unfold session; revert st.
  induction es as [|e es IH]; intros st H; simpl; [exact H | ].
  apply IH, dispatch_tidy; exact H.
Qed.

Lemma seedPortfolioForm_tidy (st : State) :
  match currentPortfolio st with
  | Some p => PortfolioPage.recordTidy p
  | None => True
  end ->
  formTidy st -> formTidy (after remote seedPortfolioForm st).
Proof.
  unfold after, fire, seedPortfolioForm.
  destruct (currentPortfolio st) as [p|]; intros Hr H; [ | exact H].
  exact Hr.
Qed.

Lemma deliver_tidy (ev : PortfolioPage.PageEvent) (st : State) :
  PortfolioPage.deliveryTidy ev ->
  formTidy st -> formTidy (PortfolioPage.deliver remote ev st).
Proof.
  intros Hd H; destruct ev as [e | q changed | q changed]; simpl.
  - apply dispatch_tidy; exact H.
  - destruct changed; [ | exact H].
    unfold after, fire, seedDesignerForm; simpl.
    destruct q; exact H.
  - destruct changed; [ | exact H].
    apply seedPortfolioForm_tidy; [ | exact H].
    unfold currentPortfolio; simpl.
    destruct q as [ | | [|p l]]; simpl in *; try exact I; exact Hd.
Qed.

(** An invariant of the page.  Let the form list no skill twice, only
    skills with clean edges and only links with non-empty, clean-edged
    parts.  Then it still does after any sequence of user events and query
    deliveries, whatever the store answers to the mutations, as long as
    every portfolio record a delivery makes current is tidy in the same
    sense; a delivery seeds the form again when the record it brings is a
    new one. *)
Theorem pageSession_keeps_tidy (evs : list PortfolioPage.PageEvent)
    (st : State) :
  Forall PortfolioPage.deliveryTidy evs ->
  formTidy st -> formTidy (PortfolioPage.pageSession remote evs st).
Proof.
  unfold PortfolioPage.pageSession; intros Hd; revert st.
  induction Hd as [|ev evs Hev _ IH]; intros st H; simpl; [exact H | ].
  apply IH, deliver_tidy; assumption.
Qed.

End Sessions.

(** ** Seeding and saving *)

Section Seeding.

Variable remote : Mutation -> bool.

Lemma seedPortfolioForm_after (st : State) (p : PortfolioRecord.t) :
  currentPortfolio st = Some p ->
  currentPortfolio (after remote seedPortfolioForm st) = Some p
  /\ portfolioForm (after remote seedPortfolioForm st)
     = PortfolioForm.mk
         (nullish (PortfolioRecord.title p) [])
         (nullish (PortfolioRecord.description p) [])
         (nullish (PortfolioRecord.specialization p) [])
         (nullish (PortfolioRecord.skills p) [])
         (nullish (PortfolioRecord.social_links p) []).
Proof.
  intros Hp; unfold after, fire, seedPortfolioForm; rewrite Hp; simpl.
  split; [exact Hp | reflexivity].
Qed.

(** A portfolio that counts as empty cannot be saved as it was seeded:
    the save stops on the warning until the user has filled the form in. *)
Theorem seeded_empty_portfolio_not_saved (st : State)
    (p : PortfolioRecord.t) :
  currentPortfolio st = Some p ->
  isPortfolioEmpty st = true ->
  fire remote savePortfolio (after remote seedPortfolioForm st)
  = (after remote seedPortfolioForm st, [Alerted completeFieldsMsg]).
Proof.
  intros Hp He.
  destruct (seedPortfolioForm_after st p Hp) as [Hp' Hf].
  rewrite (savePortfolio_fire remote _ Hp'), Hf; simpl.
  unfold isPortfolioEmpty in He; rewrite Hp in He.
  rewrite !andb_true_iff, !negb_true_iff in He.
  destruct He as [[[[Ht _] _] _] _].
  destruct (PortfolioRecord.title p) as [[|c t]|]; try discriminate Ht;
    reflexivity.
Qed.

(** A save right after seeding, when it submits at all, submits the stored
    title, description, specialization and skills unchanged, and the
    stored links, an absent list as the empty one. *)
Theorem seeded_save_resubmits (st : State) (p : PortfolioRecord.t)
    (m : Mutation) :
  currentPortfolio st = Some p ->
  In m (submitted
          (snd (fire remote savePortfolio
                  (after remote seedPortfolioForm st)))) ->
  exists args,
    m = updatePortfolio args
    /\ UpdatePortfolio.portfolioId args = PortfolioRecord._id p
    /\ PortfolioRecord.title p = Some (UpdatePortfolio.title args)
    /\ PortfolioRecord.description p
       = Some (UpdatePortfolio.description args)
    /\ PortfolioRecord.specialization p
       = Some (UpdatePortfolio.specialization args)
    /\ PortfolioRecord.skills p = Some (UpdatePortfolio.skills args)
    /\ UpdatePortfolio.social_links args
       = nullish (PortfolioRecord.social_links p) [].
Proof.
  intros Hp Hin.
  destruct (seedPortfolioForm_after st p Hp) as [Hp' Hf].
  rewrite (savePortfolio_fire remote _ Hp'), Hf in Hin.
  cbn [PortfolioForm.title PortfolioForm.description
       PortfolioForm.specialization PortfolioForm.skills] in Hin.
  destruct (PortfolioRecord.title p) as [[|c1 t]|] eqn:Et;
    try (simpl in Hin; contradiction).
  destruct (PortfolioRecord.description p) as [[|c2 d]|] eqn:Ed;
    try (simpl in Hin; rewrite ?orb_true_r in Hin; simpl in Hin;
         contradiction).
  destruct (PortfolioRecord.specialization p) as [[|c3 s]|] eqn:Es;
    try (simpl in Hin; rewrite ?orb_true_r in Hin; simpl in Hin;
         contradiction).
  destruct (PortfolioRecord.skills p) as [[|k ks]|] eqn:Ek;
    try (simpl in Hin; rewrite ?orb_true_r in Hin; simpl in Hin;
         contradiction).
  match type of Hin with
  | context [if ?c then (_, [Alerted completeFieldsMsg]) else _] =>
      destruct c
  end; [simpl in Hin; contradiction | ].
  match type of Hin with
  | context [if ?c then _ else _] => destruct c
  end; simpl in Hin; destruct Hin as [<- | []];
    eexists; repeat split.
Qed.

(** A contact save right after seeding submits the stored contact number
    and address, an absent one as the empty string. *)
Theorem seeded_contact_save (st : State) (d : DesignerRecord.t) :
  designerProfile st = Loaded d ->
  submitted (snd (fire remote saveContactInfo
                    (after remote seedDesignerForm st)))
  = [updateDesigner
       (UpdateDesigner.mk (DesignerRecord._id d)
          (nullish (DesignerRecord.contact_number d) [])
          (nullish (DesignerRecord.address d) []))].
Proof.
  intros Hd.
  assert (designerProfile (after remote seedDesignerForm st) = Loaded d
          /\ designerForm (after remote seedDesignerForm st)
             = DesignerForm.mk
                 (nullish (DesignerRecord.contact_number d) [])
                 (nullish (DesignerRecord.address d) [])) as [Hd' Hf].
  { unfold after, fire, seedDesignerForm; rewrite Hd; simpl.
    split; [exact Hd | reflexivity]. }
  rewrite (saveContactInfo_fire remote _ Hd'), Hf.
  unfold designerArgs; simpl.
  destruct (remote _); reflexivity.
Qed.

End Seeding.

(** ** What the read views show *)



Lemma falsyOrNa_false (v : option jsstring) :
  falsyOrNa v = false ->
  exists s, v = Some s /\ s <> [] /\ toLowerCase (trim s) <> lit "na".
Proof.
  destruct v as [s|]; simpl; [ | discriminate].
  rewrite orb_false_iff, negb_false_iff, truthy_true.
  intros [Hs Hna]; exists s; repeat split; try assumption.
  intros E; apply strictEq_eq in E; congruence.
Qed.

(** When the contact section shows stored values, both are there: a
    designer record is loaded, the phone and the address are present and
    not empty, and neither is the sentinel. *)
Theorem contactDetails_are_set (st : State) (phone address : option jsstring) :
  contactSection st = ContactDetails phone address ->
  exists d p a,
    designerProfile st = Loaded d
    /\ phone = Some p /\ DesignerRecord.contact_number d = Some p
    /\ address = Some a /\ DesignerRecord.address d = Some a
    /\ p <> [] /\ a <> []
    /\ toLowerCase (trim p) <> lit "na"
    /\ toLowerCase (trim a) <> lit "na".
Proof.
  unfold contactSection.
  destruct (negb (editContact st)); [ | discriminate].
  destruct (isContactInfoEmpty st) eqn:He; [discriminate | ].
  unfold isContactInfoEmpty in He.
  destruct (designerProfile st) as [ | | d]; try discriminate He.
  apply orb_false_iff in He; destruct He as [Hp Ha].
  apply falsyOrNa_false in Hp, Ha.
  destruct Hp as [p [Ep [Hp Hpn]]]; destruct Ha as [a [Ea [Ha Han]]].
  intros E; injection E as <- <-.
  exists d, p, a; repeat split; assumption.
Qed.

(** [Cancel] closes an editor without touching its form: opened again, the
    editor shows what had been typed, not what is stored. *)
Theorem cancel_keeps_edits (remote : Mutation -> bool) (st : State) :
  portfolioSection
    (session remote [PressCancelPortfolio; PressOpenPortfolio] st)
  = PortfolioEditor (portfolioForm st) (newSkill st) (newSocial st)
      (skillChipsOf st) (linkChipsOf st)
  /\ contactSection (session remote [PressCancelContact; PressOpenContact] st)
     = ContactEditor (DesignerForm.contact_number (designerForm st))
         (DesignerForm.address (designerForm st)).
Proof. split; reflexivity. Qed.






(** ** The project list: what the cards never do *)

Section ProjectCards.

Import Projects.

Lemma orElse_not_nil (a : option jsstring) (d : jsstring) :
  d <> [] -> orElse a d <> [].
Proof.
  intros Hd; destruct a as [[|c s]|]; simpl; try exact Hd; discriminate.
Qed.

Lemma ProjectsSection_cards (requests : list Request.t) (h : jsstring)
    (cards : list Card) :
  ProjectsSection requests = ProjectGrid h cards ->
  cards = map renderCard requests.
Proof.
  unfold ProjectsSection; destruct (List.length requests =? 0)%nat;
    [discriminate | ].
  intros E; injection E as _ <-; reflexivity.
Qed.

(** No card leaves the designer line blank: whatever the request carries,
    a name or [Unassigned] is shown. *)
Theorem cards_designer_never_blank (requests : list Request.t)
    (h : jsstring) (cards : list Card) :
  ProjectsSection requests = ProjectGrid h cards ->
  Forall (fun card => designerValue card <> []) cards.
Proof.
  intros E; rewrite (ProjectsSection_cards requests h cards E).
  apply Forall_forall; intros card Hin.
  apply in_map_iff in Hin; destruct Hin as [r [<- _]].
  apply orElse_not_nil; discriminate.
Qed.

Lemma detailsRoute_injective (r1 r2 : Request.t) :
  detailsRoute (renderCard r1) = detailsRoute (renderCard r2) ->
  Request._id r1 = Request._id r2.
Proof.
  unfold renderCard; cbn [detailsRoute].
  intros E; apply app_inv_head in E.
  destruct (Request._id r1) as [f1 t1], (Request._id r2) as [f2 t2].
  unfold idString in E; simpl in E; injection E as -> ->; reflexivity.
Qed.

Lemma NoDup_map_injective (A B C : Type) (f : A -> B) (g : A -> C)
    (l : list A) :
  (forall x y, g x = g y -> f x = f y) ->
  NoDup (map f l) -> NoDup (map g l).
Proof.
  intros Hinj; induction l as [|x l IH]; simpl; intros H;
    [constructor | ].
  inversion H as [|? ? Hx Hl]; subst; constructor; [ | apply IH; exact Hl].
  intros Hin; apply in_map_iff in Hin; destruct Hin as [y [Ey Hy]].
  apply Hx; apply in_map_iff; exists y; split; [ | exact Hy].
  apply Hinj; exact Ey.
Qed.

(** Requests with pairwise distinct ids give cards with pairwise distinct
    React keys and pairwise distinct detail routes, each route being
    [/client/requests/] followed by the id. *)
Theorem cards_routes_distinct (requests : list Request.t) (h : jsstring)
    (cards : list Card) :
  ProjectsSection requests = ProjectGrid h cards ->
  NoDup (map Request._id requests) ->
  NoDup (map key cards)
  /\ NoDup (map detailsRoute cards)
  /\ Forall (fun card =>
               detailsRoute card
               = lit "/client/requests/" ++ idString (key card)) cards.
Proof.
  intros E Hnd; rewrite (ProjectsSection_cards requests h cards E).
  rewrite !map_map; split; [exact Hnd | split].
  - apply (NoDup_map_injective _ _ _ Request._id); [ | exact Hnd].
    intros x y Exy; symmetry; apply detailsRoute_injective.
    symmetry; exact Exy.
  - apply Forall_forall; intros card Hin.
    apply in_map_iff in Hin; destruct Hin as [r [<- _]]; reflexivity.
Qed.

End ProjectCards.

(** ** The further properties at the sample states *)

Lemma addSkill_then_removeSkill_sample :
  formSkills
    (after accepting (removeSkill (lit "ux"))
       (after accepting addSkill stComplete))
  = [lit "x"].
Proof.
  apply (addSkill_then_removeSkill accepting stComplete).
  vm_compute; intros [H | H]; [discriminate H | exact H].
Defined.

Lemma removeSkill_then_enterSkill_sample :
  formSkills
    (enterSkill accepting (lit "x")
       (after accepting (removeSkill (lit "x"))
          (after accepting addSkill stComplete)))
  = [lit "ux"; lit "x"].
Proof.
  apply (removeSkill_then_enterSkill accepting (lit "x")
           (after accepting addSkill stComplete)).
  split.
  - exists 120%N, []; split; reflexivity.
  - exists [], 120%N; split; reflexivity.
Defined.

Lemma enterSocialLink_twice_sample :
  formLinks
    (enterSocialLink accepting (lit " Behance ") (lit "https://b.net/a")
       (enterSocialLink accepting (lit " Behance ") (lit "https://b.net/a")
          initialState))
  = [SocialLink.mk (lit "Behance") (lit "https://b.net/a");
     SocialLink.mk (lit "Behance") (lit "https://b.net/a")].
Proof.
  apply (enterSocialLink_twice accepting (lit " Behance ")
           (lit "https://b.net/a") initialState);
    vm_compute; discriminate.
Defined.

Lemma removeSocialLink_out_of_range_sample :
  formLinks (after accepting (removeSocialLink 1) stComplete) = [behance]
  /\ formLinks (after accepting (removeSocialLink (-1)) stComplete)
     = [behance].
Proof.
  split.
  - apply (@removeSocialLink_out_of_range accepting stComplete 1%Z).
    right; vm_compute; discriminate.
  - apply (@removeSocialLink_out_of_range accepting stComplete (-1)%Z).
    left; reflexivity.
Defined.

Lemma linkChip_removes_its_link_sample :
  formLinks
    (dispatch accepting (PressRemoveSocialLink 0) stComplete) = [].
Proof.
  exact (proj1 (proj2 (linkChip_removes_its_link accepting stComplete 0
                         behance (PressRemoveSocialLink 0) eq_refl))).
Defined.

Lemma skillChip_removes_its_skill_sample :
  ~ In (lit "ui")
      (formSkills
         (dispatch accepting (PressRemoveSkill (lit "ui")) stSeededTwice)).
Proof.
  apply (skillChip_removes_its_skill accepting stSeededTwice (lit "ui")
           (PressRemoveSkill (lit "ui"))).
  left; reflexivity.
Defined.

Lemma savePortfolio_never_incomplete_sample :
  exists p args,
    currentPortfolio stComplete = Some p
    /\ updatePortfolio (portfolioArgs portfolioBlank
                          (portfolioForm stComplete))
       = updatePortfolio args
    /\ UpdatePortfolio.portfolioId args = PortfolioRecord._id p
    /\ ~ allWhiteSpace (UpdatePortfolio.title args)
    /\ ~ allWhiteSpace (UpdatePortfolio.description args)
    /\ ~ allWhiteSpace (UpdatePortfolio.specialization args)
    /\ UpdatePortfolio.skills args <> [].
Proof.
  apply (savePortfolio_never_incomplete accepting stComplete).
  left; reflexivity.
Defined.

Lemma save_closes_iff_sample :
  editPortfolio (dispatch accepting PressSavePortfolio stComplete) = false
  /\ editContact (dispatch accepting PressSaveContact stComplete) = false.
Proof.
  split.
  - apply (proj1 (save_closes_iff accepting stComplete) eq_refl).
    exists portfolioBlank; split; [reflexivity | split; [ | reflexivity]].
    intros [H | [H | [H | H]]]; vm_compute in H; discriminate H.
  - apply (proj2 (save_closes_iff accepting stComplete) eq_refl).
    exists designerSet; split; reflexivity.
Defined.

Lemma save_rejected_sample :
  fire refusing saveContactInfo stComplete
  = (stComplete,
     [Rejected
        (updateDesigner (designerArgs designerSet (designerForm stComplete)))])
  /\ fire refusing savePortfolio stComplete
     = (stComplete,
        [Rejected
           (updatePortfolio
              (portfolioArgs portfolioBlank (portfolioForm stComplete)))]).
Proof.
  split.
  - apply (proj1 (save_rejected refusing stComplete) designerSet);
      reflexivity.
  - apply (proj2 (save_rejected refusing stComplete) portfolioBlank);
      try reflexivity.
    intros [H | [H | [H | H]]]; vm_compute in H; discriminate H.
Defined.

Lemma only_saves_are_observable_sample :
  snd (fire accepting (handlerOf PressAddSkill) stComplete) = []
  /\ snd (fire accepting (handlerOf (PressRemoveSocialLink 0)) stComplete)
     = [].
Proof.
  split.
  - apply (only_saves_are_observable accepting PressAddSkill stComplete);
      discriminate.
  - apply (only_saves_are_observable accepting (PressRemoveSocialLink 0)
             stComplete); discriminate.
Defined.

Lemma pageSession_keeps_tidy_sample :
  formTidy (PortfolioPage.pageSession accepting samplePageSession initialState).
Proof.
  apply (pageSession_keeps_tidy accepting samplePageSession initialState).
  - assert (PortfolioPage.recordTidy portfolioSaved) as Hsaved.
    { split; [ | split]; simpl.
      - constructor; [intros [] | constructor].
      - constructor; [ | constructor].
        exact (trim_truthy_clean (lit "x") eq_refl).
      - constructor; [ | constructor].
        split.
        + exact (trim_truthy_clean (lit "Behance") eq_refl).
        + exact (trim_truthy_clean (lit "https://behance.net/ana") eq_refl). }
    assert (PortfolioPage.recordTidy portfolioBlank) as Hblank
      by (repeat split; constructor).
    unfold samplePageSession.
    repeat (constructor; [first [exact I | exact Hsaved | exact Hblank] | ]).
    constructor.
  - repeat split; constructor.
Defined.

Lemma seeded_empty_portfolio_not_saved_sample :
  fire accepting savePortfolio (after accepting seedPortfolioForm stNoPhone)
  = (after accepting seedPortfolioForm stNoPhone,
     [Alerted completeFieldsMsg]).
Proof.
  apply (seeded_empty_portfolio_not_saved accepting stNoPhone portfolioBlank);
    reflexivity.
Defined.

Lemma seeded_save_resubmits_sample :
  exists args,
    updatePortfolio
      (UpdatePortfolio.mk portfolioId (lit "Logos") (lit "Sports logos")
         (lit "Jerseys") [lit "ui"; lit "ui"] [])
    = updatePortfolio args
    /\ UpdatePortfolio.portfolioId args = PortfolioRecord._id portfolioTwice
    /\ PortfolioRecord.title portfolioTwice
       = Some (UpdatePortfolio.title args)
    /\ PortfolioRecord.description portfolioTwice
       = Some (UpdatePortfolio.description args)
    /\ PortfolioRecord.specialization portfolioTwice
       = Some (UpdatePortfolio.specialization args)
    /\ PortfolioRecord.skills portfolioTwice
       = Some (UpdatePortfolio.skills args)
    /\ UpdatePortfolio.social_links args
       = nullish (PortfolioRecord.social_links portfolioTwice) [].
Proof.
  apply (seeded_save_resubmits accepting stReading portfolioTwice);
    [reflexivity | left; reflexivity].
Defined.

Lemma seeded_contact_save_sample :
  submitted (snd (fire accepting saveContactInfo
                    (after accepting seedDesignerForm stNoPhone)))
  = [updateDesigner
       (UpdateDesigner.mk designerId (lit "") (lit "12 Mabini St"))].
Proof.
  exact (seeded_contact_save accepting stNoPhone designerNoPhone eq_refl).
Defined.


Lemma contactDetails_are_set_sample :
  exists d p a,
    designerProfile stReading = Loaded d
    /\ Some (lit "0917 555 0101") = Some p
    /\ DesignerRecord.contact_number d = Some p
    /\ Some (lit "12 Mabini St") = Some a
    /\ DesignerRecord.address d = Some a
    /\ p <> [] /\ a <> []
    /\ toLowerCase (trim p) <> lit "na"
    /\ toLowerCase (trim a) <> lit "na".
Proof.
  exact (contactDetails_are_set stReading (Some (lit "0917 555 0101"))
           (Some (lit "12 Mabini St")) eq_refl).
Defined.


Lemma cards_designer_never_blank_sample :
  Forall (fun card => Projects.designerValue card <> [])
    (map Projects.renderCard [requestOpen; requestTaken]).
Proof.
  exact (cards_designer_never_blank [requestOpen; requestTaken]
           (lit "My Projects")
           (map Projects.renderCard [requestOpen; requestTaken]) eq_refl).
Defined.

Lemma cards_routes_distinct_sample :
  NoDup (map Projects.detailsRoute
           (map Projects.renderCard [requestOpen; requestTaken])).
Proof.
  apply (cards_routes_distinct [requestOpen; requestTaken]
           (lit "My Projects")
           (map Projects.renderCard [requestOpen; requestTaken]) eq_refl).
  simpl; constructor; [intros [H | []]; discriminate H | ].
  constructor; [intros [] | constructor].
Defined.
